(** * neurotic.scripts: the command-line and launch layer

    A shallow embedding of [src/neurotic/scripts.py].  The module parses the
    command line with [argparse], adjusts two logging levels, and then either
    starts the Qt application or starts a Jupyter server; [quick_launch]
    drives the data-loading and viewer-configuration layer.

    Everything outside the module (Qt, [subprocess], [pkg_resources],
    [load_dataset], [EphyviewerConfigurator], [MainWindow]) is an external
    collaborator: a call is recorded in a trace and answered by a [World],
    which may return a value or raise.  The logging levels are explicit
    state. *)

From Stdlib Require Import ZArith Ascii.
From stdpp Require Import gmap strings list fin_maps.

#[local] Set Warnings "-register-all".
Local Open Scope string_scope.
Local Open Scope list_scope.
Local Open Scope stdpp_scope.

(** ** Python values *)

(** The dynamically typed values that flow through the module. *)
Inductive pyval : Type :=
| PyNone
| PyBool (b : bool)
| PyInt (n : Z)
| PyStr (s : string)
| PyBytes (b : list Byte.byte)
| PyList (l : list pyval)
| PyTuple (l : list pyval)
| PyObj (ref : nat).

(** Python truth value testing ([if out:], [if args.debug:]).  An object of
    the external layer is taken to have the default truth value. *)
Definition truthy (v : pyval) : bool :=
  match v with
  | PyNone => false
  | PyBool b => b
  | PyInt n => negb (n =? 0)%Z
  | PyStr s => negb (String.eqb s "")
  | PyBytes b => match b with [] => false | _ => true end
  | PyList l => match l with [] => false | _ => true end
  | PyTuple l => match l with [] => false | _ => true end
  | PyObj _ => true
  end.

(** ** Exceptions and outcomes *)

Inductive exn : Type :=
| FileNotFoundError
| SystemExit (status : Z)
| AttributeError (name : string)
| TypeError
| IndexError
| OtherException (name : string).

Inductive outcome (A : Type) : Type :=
| Returned (a : A)
| Raised (e : exn).
Arguments Returned {A} a.
Arguments Raised {A} e.

(** ** Calls out of the module and the trace *)

(** A call into an external collaborator, written as in the source:
    a callable applied to positional and keyword arguments, or a method of an
    object. *)
Inductive call : Type :=
| CallFunction (f : string) (args : list pyval) (kwargs : list (string * pyval))
| CallMethod (obj : pyval) (meth : string) (args : list pyval).

Inductive logger_name : Type :=
| LoggerParent   (* logger.parent *)
| LoggerLibav.   (* logging.getLogger('libav') *)

(** Why [ArgumentParser.parse_args] left through [sys.exit]. *)
Inductive parse_error : Type :=
| AmbiguousOption (arg : string) (matches : list string)
| ExpectedOneArgument (option_string : string)
| IgnoredExplicitArgument (option_string explicit_arg : string)
| InvalidChoice (option_string value : string)
| NotAllowedWith (option_string : string) (conflict : nat)
| UnrecognizedArguments (extras : list string).

Inductive exit_reason : Type :=
| HelpRequested
| VersionRequested (version : string)
| UsageError (e : parse_error).

Inductive event : Type :=
| Called (c : call) (r : outcome pyval)
| SetLevel (lg : logger_name) (level : Z)
| Logged (level : Z) (msg : string) (values : list pyval)
| ParserExit (why : exit_reason).

(** The external layer: given the interaction so far, it answers a call. *)
Definition World : Type := list event → call → outcome pyval.

(** ** Logging state *)

Record logging : Type := Logging {
  parent_level : Z;
  libav_level : Z;
}.

Definition DEBUG : Z := 10.
Definition INFO : Z := 20.
Definition WARNING : Z := 30.
Definition ERROR : Z := 40.
Definition CRITICAL : Z := 50.

Definition set_level (lg : logger_name) (level : Z) (l : logging) : logging :=
  match lg with
  | LoggerParent => {| parent_level := level; libav_level := libav_level l |}
  | LoggerLibav => {| parent_level := parent_level l; libav_level := level |}
  end.

(** ** The effect monad

    A computation reads the history of the interaction and the logging
    state; it yields an outcome, the new logging state and the events it
    emitted, oldest first. *)
Definition M (A : Type) : Type :=
  list event → logging → outcome A * logging * list event.

Global Instance M_ret : MRet M := λ A a, λ _ lg, (Returned a, lg, []).

Global Instance M_bind : MBind M := λ A B f m, λ h lg,
  match m h lg with
  | (Returned a, lg1, ev1) =>
      match f a (h ++ ev1) lg1 with
      | (r, lg2, ev2) => (r, lg2, ev1 ++ ev2)
      end
  | (Raised e, lg1, ev1) => (Raised e, lg1, ev1)
  end.

Definition raise {A : Type} (e : exn) : M A := λ _ lg, (Raised e, lg, []).

Definition emit (ev : event) : M unit := λ _ lg, (Returned (), lg, [ev]).

(** [try: body except FileNotFoundError as e: handler] *)
Definition try_except_FileNotFoundError {A : Type} (body handler : M A) : M A :=
  λ h lg,
  match body h lg with
  | (Raised FileNotFoundError, lg1, ev1) =>
      match handler (h ++ ev1) lg1 with
      | (r, lg2, ev2) => (r, lg2, ev1 ++ ev2)
      end
  | res => res
  end.

Definition outcome_of {A : Type} (res : outcome A * logging * list event) : outcome A :=
  res.1.1.
Definition logging_of {A : Type} (res : outcome A * logging * list event) : logging :=
  res.1.2.
Definition events_of {A : Type} (res : outcome A * logging * list event) : list event :=
  res.2.

(** ** A model of [argparse]

    The part of the standard library's [argparse] (as of CPython 3.8) that
    [parse_args] relies on: parser-level defaults, positionals with
    [nargs='?'], optionals that store a constant or one string, [choices],
    mutually exclusive groups, the [help] and [version] actions, [--],
    [--opt=value], unique prefixes of long options and clusters of
    single-dash options.  Printing is not modelled: an exit carries its
    reason instead of the text.  Strings are byte strings, so [\d] in the
    negative-number pattern means an ASCII digit. *)
Module argparse.

Abbreviation Namespace := (gmap string pyval).

Inductive nargs_t : Type :=
| NargsNone        (* nargs=None: exactly one argument *)
| NargsOptional    (* nargs='?' *)
| NargsZero.       (* nargs=0, the constant-storing and exiting actions *)

Inductive action_class : Type :=
| StoreAction
| StoreConstAction (const : pyval)
| HelpAction
| VersionAction (version : string).

(** An action; [default = None] stands for [argparse.SUPPRESS]. *)
Record Action : Type := mkAction {
  option_strings : list string;
  dest : string;
  nargs : nargs_t;
  default : option pyval;
  choices : option (list string);
  class : action_class;
}.

Record ArgumentParser : Type := mkParser {
  _defaults : gmap string pyval;
  _actions : list Action;
  _mutually_exclusive_groups : list (list nat);
}.

(** What [add_argument] is given besides the names. *)
Inductive action_kw : Type :=
| store | store_true | store_false | version (v : string).

Record kwargs : Type := mkKwargs {
  kw_action : action_kw;
  kw_nargs : option nargs_t;
  kw_dest : option string;
  kw_choices : option (list string);
}.

(** [str.lstrip('-')] *)
Fixpoint lstrip_dash (s : string) : string :=
  match s with
  | String "-"%char s' => lstrip_dash s'
  | _ => s
  end.

(** [str.replace('-', '_')] *)
Fixpoint dash_to_underscore (s : string) : string :=
  match s with
  | EmptyString => EmptyString
  | String "-"%char s' => String "_"%char (dash_to_underscore s')
  | String c s' => String c (dash_to_underscore s')
  end.

Definition is_long_option (s : string) : bool :=
  match s with
  | String "-"%char (String "-"%char (String _ _)) => true
  | _ => false
  end.

(** The destination inferred from the option strings: the first long option
    string if there is one, else the first option string. *)
Definition infer_dest (names : list string) : string :=
  let chosen :=
    match List.filter is_long_option names with
    | l :: _ => l
    | [] => match names with n :: _ => n | [] => "" end
    end in
  dash_to_underscore (lstrip_dash chosen).

Definition is_positional (names : list string) : bool :=
  match names with
  | [String "-"%char _] => false
  | [_] => true
  | _ => false
  end.

(** [ArgumentParser(description=...)]: no parser-level defaults, and the
    [-h/--help] action that [add_help=True] registers. *)
Definition new_parser : ArgumentParser :=
  {| _defaults := ∅;
     _actions := [ {| option_strings := ["-h"; "--help"]; dest := "help";
                      nargs := NargsZero; default := None; choices := None;
                      class := HelpAction |} ];
     _mutually_exclusive_groups := [] |}.

(** [parser.set_defaults] with keyword arguments: record the defaults and overwrite the
    default of every action already registered under one of the names. *)
Definition set_defaults (kw : list (string * pyval)) (p : ArgumentParser)
  : ArgumentParser :=
  let d : gmap string pyval := list_to_map kw in
  {| _defaults := d ∪ _defaults p;
     _actions :=
       (λ a, match d !! dest a with
             | Some v => mkAction (option_strings a) (dest a) (nargs a) (Some v)
                                  (choices a) (class a)
             | None => a
             end) <$> _actions p;
     _mutually_exclusive_groups := _mutually_exclusive_groups p |}.

(** The action that [add_argument] builds.  A default that the call does
    not give is the parser-level default of the destination when there is
    one, and the default of the action class otherwise. *)
Definition make_action (p : ArgumentParser) (names : list string) (kw : kwargs)
  : Action :=
  let positional := is_positional names in
  let d := match kw_dest kw with
           | Some d => d
           | None => if positional then match names with n :: _ => n | [] => "" end
                     else infer_dest names
           end in
  let dflt (class_default : option pyval) :=
    match _defaults p !! d with
    | Some v => Some v
    | None => class_default
    end in
  let opts := if positional then [] else names in
  match kw_action kw with
  | store =>
      mkAction opts d (from_option id NargsNone (kw_nargs kw)) (dflt (Some PyNone))
               (kw_choices kw) StoreAction
  | store_true =>
      mkAction opts d NargsZero (dflt (Some (PyBool false))) None
               (StoreConstAction (PyBool true))
  | store_false =>
      mkAction opts d NargsZero (dflt (Some (PyBool true))) None
               (StoreConstAction (PyBool false))
  | version v =>
      mkAction opts d NargsZero (dflt None) None (VersionAction v)
  end.

(** [parser.add_argument] with its names and keyword arguments *)
Definition add_argument (names : list string) (kw : kwargs) (p : ArgumentParser)
  : ArgumentParser :=
  {| _defaults := _defaults p;
     _actions := _actions p ++ [make_action p names kw];
     _mutually_exclusive_groups := _mutually_exclusive_groups p |}.

(** [group = parser.add_mutually_exclusive_group()]: the group is known by
    its index. *)
Definition add_mutually_exclusive_group (p : ArgumentParser)
  : nat * ArgumentParser :=
  (length (_mutually_exclusive_groups p),
   {| _defaults := _defaults p;
      _actions := _actions p;
      _mutually_exclusive_groups := _mutually_exclusive_groups p ++ [[]] |}).

(** [group.add_argument] for a mutually exclusive group: the
    action is registered with the parser and joins the group. *)
Definition group_add_argument (group : nat) (names : list string) (kw : kwargs)
    (p : ArgumentParser) : ArgumentParser :=
  let id := length (_actions p) in
  {| _defaults := _defaults p;
     _actions := _actions p ++ [make_action p names kw];
     _mutually_exclusive_groups :=
       alter (λ g, g ++ [id]) group (_mutually_exclusive_groups p) |}.

(** *** Parsing *)

(** [parser._option_string_actions]: every option string with the index of
    its action, in registration order. *)
Definition option_string_actions (p : ArgumentParser) : list (string * nat) :=
  mjoin (imap (λ i a, (λ o, (o, i)) <$> option_strings a) (_actions p)).

Definition find_option (p : ArgumentParser) (s : string) : option nat :=
  snd <$> List.find (λ x, String.eqb x.1 s) (option_string_actions p).

(** [s.split('=', 1)] when ['=' in s] *)
Fixpoint split_eq (s : string) : option (string * string) :=
  match s with
  | EmptyString => None
  | String c s' =>
      if Ascii.eqb c "="%char then Some (EmptyString, s')
      else match split_eq s' with
           | Some (a, b) => Some (String c a, b)
           | None => None
           end
  end.

Fixpoint contains_space (s : string) : bool :=
  match s with
  | EmptyString => false
  | String c s' => Ascii.eqb c " "%char || contains_space s'
  end.

Definition is_digit (c : ascii) : bool :=
  (48 <=? nat_of_ascii c)%nat && (nat_of_ascii c <=? 57)%nat.

Fixpoint all_digits (s : string) : bool :=
  match s with
  | EmptyString => true
  | String c s' => is_digit c && all_digits s'
  end.

Fixpoint skip_digits (s : string) : string :=
  match s with
  | String c s' => if is_digit c then skip_digits s' else s
  | EmptyString => s
  end.

Definition some_digits (s : string) : bool :=
  match s with
  | EmptyString => false
  | _ => all_digits s
  end.

(** The text before a final newline, where [$] also matches. *)
Fixpoint without_final_newline (s : string) : string :=
  match s with
  | String c EmptyString => if Ascii.eqb c "010"%char then EmptyString else s
  | String c s' => String c (without_final_newline s')
  | EmptyString => s
  end.

(** [parser._negative_number_matcher]: the pattern [^-\d+$|^-\d*\.\d+$] *)
Definition negative_number_like (s : string) : bool :=
  let number body :=
    some_digits body ||
    match skip_digits body with
    | String "."%char frac => some_digits frac
    | _ => false
    end in
  match s with
  | String "-"%char body => number body || number (without_final_newline body)
  | _ => false
  end.

(** The interpretations of an argument string that is not an option string
    itself: [parser._get_option_tuples]. *)
Definition get_option_tuples (p : ArgumentParser) (arg : string)
  : list (nat * string * option string) :=
  match arg with
  | String "-"%char (String "-"%char _) =>
      let '(option_prefix, explicit_arg) :=
        match split_eq arg with
        | Some (o, e) => (o, Some e)
        | None => (arg, None)
        end in
      omap (λ '(o, i), if String.prefix option_prefix o
                       then Some (i, o, explicit_arg) else None)
           (option_string_actions p)
  | String "-"%char (String c short_explicit_arg) =>
      let short_option_prefix := String "-"%char (String c EmptyString) in
      omap (λ '(o, i), if String.eqb o short_option_prefix
                       then Some (i, o, Some short_explicit_arg)
                       else if String.prefix arg o
                            then Some (i, o, None) else None)
           (option_string_actions p)
  | _ => []
  end.

(** How an argument string reads: as an argument ([A]), as the first [--]
    ([Dash]), or as an option ([O]) with the action it names, if any, the
    option string and the argument attached to it. *)
Inductive arg_class : Type :=
| A
| Dash
| O (action : option nat) (option_string : string) (explicit_arg : option string).

(** [parser._parse_optional] *)
Definition parse_optional (p : ArgumentParser) (arg : string)
  : parse_error + arg_class :=
  match arg with
  | EmptyString => inr A
  | String "-"%char tail =>
      match find_option p arg with
      | Some i => inr (O (Some i) arg None)
      | None =>
          match tail with
          | EmptyString => inr A
          | _ =>
              let by_equals :=
                match split_eq arg with
                | Some (o, e) =>
                    match find_option p o with
                    | Some i => Some (O (Some i) o (Some e))
                    | None => None
                    end
                | None => None
                end in
              match by_equals with
              | Some cls => inr cls
              | None =>
                  match get_option_tuples p arg with
                  | [(i, o, e)] => inr (O (Some i) o e)
                  | (_ :: _ :: _) as tuples =>
                      inl (AmbiguousOption arg ((λ t, t.1.2) <$> tuples))
                  | [] =>
                      if negative_number_like arg then inr A
                      else if contains_space arg then inr A
                      else inr (O None arg None)
                  end
              end
          end
      end
  | _ => inr A
  end.

(** The pattern of the argument strings: everything after the first [--]
    is an argument. *)
Fixpoint classify (p : ArgumentParser) (arg_strings : list string)
  : parse_error + list (string * arg_class) :=
  match arg_strings with
  | [] => inr []
  | arg :: rest =>
      if String.eqb arg "--" then inr ((arg, Dash) :: ((λ s, (s, A)) <$> rest))
      else match parse_optional p arg with
           | inl e => inl e
           | inr cls =>
               match classify p rest with
               | inl e => inl e
               | inr items => inr ((arg, cls) :: items)
               end
           end
  end.

(** What parsing has done so far. *)
Record pstate : Type := mkPstate {
  namespace : Namespace;
  seen_non_default_actions : list nat;
  positionals : list nat;
  extras : list string;
}.

(** How a parse ends: a namespace, an exit through [sys.exit], or an
    exception of the library itself. *)
Inductive result (T : Type) : Type :=
| Ok (t : T)
| Exit (why : exit_reason)
| Crash (e : exn).
Arguments Ok {T} t.
Arguments Exit {T} why.
Arguments Crash {T} e.

Definition usage_error {T : Type} (e : parse_error) : result T :=
  Exit (UsageError e).

(** [arg_strings.remove('--')]: drop the first [--], if any. *)
Fixpoint remove_dashdash (l : list string) : list string :=
  match l with
  | [] => []
  | s :: l' => if String.eqb s "--" then l' else s :: remove_dashdash l'
  end.

Definition action_name (a : Action) : string :=
  match option_strings a with
  | o :: _ => o
  | [] => dest a
  end.

(** [parser._check_value] *)
Definition check_value (a : Action) (s : string) : option parse_error :=
  match choices a with
  | Some cs =>
      if existsb (String.eqb s) cs then None
      else Some (InvalidChoice (action_name a) s)
  | None => None
  end.

(** [parser._get_values]: the value, or [None] for [SUPPRESS], and whether
    it is the very default of the action. *)
Definition get_values (a : Action) (arg_strings : list string)
  : parse_error + (option pyval * bool) :=
  match remove_dashdash arg_strings, nargs a with
  | [], NargsOptional =>
      match option_strings a with
      | _ :: _ =>
          inr (Some PyNone,
               match default a with Some PyNone => true | _ => false end)
      | [] =>
          match default a with
          | Some (PyStr s) =>
              match check_value a s with
              | Some e => inl e
              | None => inr (Some (PyStr s), true)
              end
          | d => inr (d, true)
          end
      end
  | [s], (NargsNone | NargsOptional) =>
      match check_value a s with
      | Some e => inl e
      | None => inr (Some (PyStr s), false)
      end
  | l, _ =>
      match omap (check_value a) l with
      | e :: _ => inl e
      | [] => inr (Some (PyList (PyStr <$> l)), false)
      end
  end.

(** The actions that may not occur together with action [id]. *)
Definition action_conflicts (p : ArgumentParser) (id : nat) : list nat :=
  mjoin ((λ g, match list_find (λ i, i = id) g with
               | Some (k, _) => take k g ++ drop (S k) g
               | None => []
               end) <$> _mutually_exclusive_groups p).

(** [take_action] of [_parse_known_args] *)
Definition take_action (p : ArgumentParser) (id : nat) (arg_strings : list string)
    (st : pstate) : result pstate :=
  match _actions p !! id with
  | None => Ok st
  | Some a =>
      match get_values a arg_strings with
      | inl e => usage_error e
      | inr (value, is_default) =>
          let seen := if is_default then seen_non_default_actions st
                      else id :: seen_non_default_actions st in
          let conflict :=
            if is_default then None
            else List.find (λ c, bool_decide (c ∈ seen)) (action_conflicts p id) in
          match conflict with
          | Some c => usage_error (NotAllowedWith (action_name a) c)
          | None =>
              let st' := mkPstate (namespace st) seen (positionals st) (extras st) in
              match value with
              | None => Ok st'
              | Some v =>
                  match class a with
                  | StoreAction =>
                      Ok (mkPstate (<[dest a := v]> (namespace st)) seen
                                   (positionals st) (extras st))
                  | StoreConstAction c =>
                      Ok (mkPstate (<[dest a := c]> (namespace st)) seen
                                   (positionals st) (extras st))
                  | HelpAction => Exit HelpRequested
                  | VersionAction v => Exit (VersionRequested v)
                  end
              end
          end
      end
  end.

Fixpoint take_actions (p : ArgumentParser) (tuples : list (nat * list string))
    (st : pstate) : result pstate :=
  match tuples with
  | [] => Ok st
  | (id, args) :: tuples' =>
      match take_action p id args st with
      | Ok st' => take_actions p tuples' st'
      | r => r
      end
  end.

(** [parser._match_argument] for an optional, whose pattern has no [--]:
    how many of the argument strings that follow it takes. *)
Definition match_argument (a : Action) (pattern : list arg_class)
  : parse_error + nat :=
  match nargs a, pattern with
  | NargsZero, _ => inr 0
  | NargsNone, A :: _ => inr 1
  | NargsNone, _ => inl (ExpectedOneArgument (action_name a))
  | NargsOptional, A :: _ => inr 1
  | NargsOptional, _ => inr 0
  end.

(** [option_string[1] not in parser.prefix_chars] *)
Definition single_dash (option_string : string) : bool :=
  match option_string with
  | String _ (String "-"%char _) => false
  | _ => true
  end.

(** An optional without an attached argument takes what it needs from the
    strings that follow. *)
Definition consume_following (p : ArgumentParser) (id : nat)
    (rest : list (string * arg_class)) (tuples : list (nat * list string))
  : result (list (nat * list string) * nat) :=
  match _actions p !! id with
  | None => Ok (tuples, 0)
  | Some a =>
      match match_argument a (rest.*2) with
      | inl e => usage_error e
      | inr n => Ok (tuples ++ [(id, (take n rest).*1)], n)
      end
  end.

(** The loop of [consume_optional] while an argument is attached: a
    single-dash option that takes no argument hands the tail of the string
    to the next single-dash option. *)
Fixpoint consume_explicit (p : ArgumentParser) (id : nat) (option_string : string)
    (explicit_arg : string) (rest : list (string * arg_class))
    (tuples : list (nat * list string))
  : result (list (nat * list string) * nat) :=
  match _actions p !! id with
  | None => Ok (tuples, 0)
  | Some a =>
      match match_argument a [A] with
      | inl e => usage_error e
      | inr arg_count =>
          if (arg_count =? 0)%nat && single_dash option_string then
            match explicit_arg with
            | EmptyString => Crash IndexError
            | String c new_explicit_arg =>
                let option_string' := String "-"%char (String c EmptyString) in
                match find_option p option_string' with
                | Some id' =>
                    match new_explicit_arg with
                    | EmptyString =>
                        consume_following p id' rest (tuples ++ [(id, [])])
                    | _ =>
                        consume_explicit p id' option_string' new_explicit_arg
                                         rest (tuples ++ [(id, [])])
                    end
                | None =>
                    usage_error (IgnoredExplicitArgument (action_name a) explicit_arg)
                end
            end
          else if (arg_count =? 1)%nat then
            Ok (tuples ++ [(id, [explicit_arg])], 0)
          else
            usage_error (IgnoredExplicitArgument (action_name a) explicit_arg)
      end
  end.

(** [consume_optional]: the state after the option at the head, and how
    many of the following strings it took. *)
Definition consume_optional (p : ArgumentParser) (arg : string)
    (action : option nat) (option_string : string) (explicit_arg : option string)
    (rest : list (string * arg_class)) (st : pstate) : result (pstate * nat) :=
  match action with
  | None =>
      Ok (mkPstate (namespace st) (seen_non_default_actions st) (positionals st)
                   (extras st ++ [arg]), 0)
  | Some id =>
      let tuples :=
        match explicit_arg with
        | Some e => consume_explicit p id option_string e rest []
        | None => consume_following p id rest []
        end in
      match tuples with
      | Ok (tuples, n) =>
          match take_actions p tuples st with
          | Ok st' => Ok (st', n)
          | Exit why => Exit why
          | Crash e => Crash e
          end
      | Exit why => Exit why
      | Crash e => Crash e
      end
  end.

Fixpoint leading_dashes (pattern : list arg_class) : nat :=
  match pattern with
  | Dash :: pattern' => S (leading_dashes pattern')
  | _ => 0
  end.

(** What the pattern of a positional with [nargs='?'] matches at the head
    of the pattern of the argument strings: any [--], at most one argument,
    any [--]. *)
Definition match_optional_group (pattern : list arg_class) : nat :=
  let d1 := leading_dashes pattern in
  let after := drop d1 pattern in
  let a := match after with A :: _ => 1 | _ => 0 end in
  d1 + a + leading_dashes (drop a after).

Fixpoint positional_slices (ids : list nat) (rem : list (string * arg_class))
  : list (nat * list string) * nat :=
  match ids with
  | [] => ([], 0)
  | id :: ids' =>
      let n := match_optional_group (rem.*2) in
      let '(tuples, m) := positional_slices ids' (drop n rem) in
      ((id, (take n rem).*1) :: tuples, n + m)
  end.

(** [consume_positionals]: every positional left is matched, each with
    [nargs='?'], and the number of strings they took is returned. *)
Definition consume_positionals (p : ArgumentParser)
    (rem : list (string * arg_class)) (st : pstate) : result (pstate * nat) :=
  let '(tuples, n) := positional_slices (positionals st) rem in
  match take_actions p tuples
          (mkPstate (namespace st) (seen_non_default_actions st) [] (extras st)) with
  | Ok st' => Ok (st', n)
  | Exit why => Exit why
  | Crash e => Crash e
  end.

(** The alternation of positionals and optionals in [_parse_known_args];
    [skip] counts the strings already taken by the action before them. *)
Fixpoint consume (p : ArgumentParser) (skip : nat)
    (rem : list (string * arg_class)) (st : pstate) : result pstate :=
  match rem with
  | [] =>
      match consume_positionals p [] st with
      | Ok (st', _) => Ok st'
      | Exit why => Exit why
      | Crash e => Crash e
      end
  | (arg, cls) :: rest =>
      match skip with
      | S k => consume p k rest st
      | 0 =>
          match cls with
          | O action option_string explicit_arg =>
              match consume_optional p arg action option_string explicit_arg
                                     rest st with
              | Ok (st', n) => consume p n rest st'
              | Exit why => Exit why
              | Crash e => Crash e
              end
          | _ =>
              match positionals st with
              | [] =>
                  consume p 0 rest
                    (mkPstate (namespace st) (seen_non_default_actions st) []
                              (extras st ++ [arg]))
              | _ =>
                  match consume_positionals p rem st with
                  | Ok (st', n) => consume p (pred n) rest st'
                  | Exit why => Exit why
                  | Crash e => Crash e
                  end
              end
          end
      end
  end.

(** The namespace before any argument is read: the default of every action
    whose destination is not set yet, then the parser-level defaults that
    are still missing. *)
Definition initial_namespace (p : ArgumentParser) : Namespace :=
  foldl (λ ns a, match default a, ns !! dest a with
                 | Some v, None => <[dest a := v]> ns
                 | _, _ => ns
                 end) ∅ (_actions p)
  ∪ _defaults p.

Definition positional_actions (p : ArgumentParser) : list nat :=
  omap (λ '(i, a), match option_strings a with
                   | [] => Some i
                   | _ => None
                   end) (imap (λ i a, (i, a)) (_actions p)).

(** [parser.parse_args(args)] *)
Definition parse_args (p : ArgumentParser) (args : list string)
  : result Namespace :=
  match classify p args with
  | inl e => usage_error e
  | inr items =>
      match consume p 0 items
              (mkPstate (initial_namespace p) [] (positional_actions p) []) with
      | Ok st =>
          match extras st with
          | [] => Ok (namespace st)
          | ex => usage_error (UnrecognizedArguments ex)
          end
      | Exit why => Exit why
      | Crash e => Crash e
      end
  end.

End argparse.

(** ** Primitive effects *)

(** A call into the external layer: the world answers it, given the history,
    and the call is recorded with its answer. *)
Definition call_out (world : World) (c : call) : M pyval :=
  λ h lg, let r := world h c in (r, lg, [Called c r]).

(** [logger.setLevel(level)] *)
Definition setLevel (lgr : logger_name) (level : Z) : M unit :=
  λ _ lg, (Returned (), set_level lgr level lg, [SetLevel lgr level]).

(** [logger.debug], [logger.info], [logger.error] of the module's logger *)
Definition logger_debug (msg : string) : M unit := emit (Logged DEBUG msg []).
Definition logger_info (msg : string) : M unit := emit (Logged INFO msg []).
Definition logger_error (msg : string) (values : list pyval) : M unit :=
  emit (Logged ERROR msg values).

(** Attribute access on the namespace that [argparse] returns. *)
Definition getattr (args : gmap string pyval) (name : string) : M pyval :=
  match args !! name with
  | Some v => mret v
  | None => raise (AttributeError name)
  end.

(** [v[i]]: indexing of the built-in sequences; an object of the external
    layer is asked. *)
Definition getitem (world : World) (v : pyval) (i : nat) : M pyval :=
  match v with
  | PyTuple l | PyList l =>
      match l !! i with
      | Some x => mret x
      | None => raise IndexError
      end
  | PyBytes b =>
      match b !! i with
      | Some x => mret (PyInt (Z.of_N (Byte.to_N x)))
      | None => raise IndexError
      end
  | PyStr s =>
      match String.get i s with
      | Some c => mret (PyStr (String c EmptyString))
      | None => raise IndexError
      end
  | PyObj _ => call_out world (CallMethod v "__getitem__" [PyInt (Z.of_nat i)])
  | _ => raise TypeError
  end.

(** [sys.exit] status of a parser exit: 0 after the help or the version, 2
    after a usage error. *)
Definition exit_status (why : exit_reason) : Z :=
  match why with
  | HelpRequested | VersionRequested _ => 0
  | UsageError _ => 2
  end.

(** [parser.parse_args(args)] as an effect: an exit is recorded and raises
    [SystemExit]. *)
Definition parser_parse_args (parser : argparse.ArgumentParser)
    (args : list string) : M (gmap string pyval) :=
  match argparse.parse_args parser args with
  | argparse.Ok ns => mret ns
  | argparse.Exit why => emit (ParserExit why);; raise (SystemExit (exit_status why))
  | argparse.Crash e => raise e
  end.

(** [subprocess.PIPE] *)
Definition PIPE : pyval := PyInt (-1).

Definition double_quote : string := String "034"%char EmptyString.

(** ** The module [neurotic.scripts] *)

Section scripts.

(** What the module imports from the rest of the package, and the process
    state it reads. *)
Context (__version__ : string) (default_log_level : Z).
Context (available_ui_scales available_themes : list string).
Context (world : World) (sys_argv : list string).

Local Abbreviation call := (call_out world).

Import argparse.

(** The parser that [parse_args] configures, statement by statement. *)
Definition parser : ArgumentParser :=
  let parser := new_parser in
  let defaults :=
    [ ("file", PyNone);
      ("dataset", PyNone);
      ("debug", PyBool false);
      ("lazy", PyBool true);
      ("thick_traces", PyBool false);
      ("show_datetime", PyBool false);
      ("ui_scale", PyStr "medium");
      ("theme", PyStr "light") ] in
  let parser := set_defaults defaults parser in
  let parser :=
    add_argument ["file"]
      {| kw_action := store; kw_nargs := Some NargsOptional;
         kw_dest := None; kw_choices := None |} parser in
  let parser :=
    add_argument ["dataset"]
      {| kw_action := store; kw_nargs := Some NargsOptional;
         kw_dest := None; kw_choices := None |} parser in
  let parser :=
    add_argument ["-V"; "--version"]
      {| kw_action := version ("neurotic " +:+ __version__); kw_nargs := None;
         kw_dest := None; kw_choices := None |} parser in
  let '(group, parser) := add_mutually_exclusive_group parser in
  let parser :=
    group_add_argument group ["--debug"]
      {| kw_action := store_true; kw_nargs := None;
         kw_dest := Some "debug"; kw_choices := None |} parser in
  let parser :=
    group_add_argument group ["--no-debug"]
      {| kw_action := store_false; kw_nargs := None;
         kw_dest := Some "debug"; kw_choices := None |} parser in
  let '(group, parser) := add_mutually_exclusive_group parser in
  let parser :=
    group_add_argument group ["--lazy"]
      {| kw_action := store_true; kw_nargs := None;
         kw_dest := Some "lazy"; kw_choices := None |} parser in
  let parser :=
    group_add_argument group ["--no-lazy"]
      {| kw_action := store_false; kw_nargs := None;
         kw_dest := Some "lazy"; kw_choices := None |} parser in
  let '(group, parser) := add_mutually_exclusive_group parser in
  let parser :=
    group_add_argument group ["--thick-traces"]
      {| kw_action := store_true; kw_nargs := None;
         kw_dest := Some "thick_traces"; kw_choices := None |} parser in
  let parser :=
    group_add_argument group ["--no-thick-traces"]
      {| kw_action := store_false; kw_nargs := None;
         kw_dest := Some "thick_traces"; kw_choices := None |} parser in
  let '(group, parser) := add_mutually_exclusive_group parser in
  let parser :=
    group_add_argument group ["--show-datetime"]
      {| kw_action := store_true; kw_nargs := None;
         kw_dest := Some "show_datetime"; kw_choices := None |} parser in
  let parser :=
    group_add_argument group ["--no-show-datetime"]
      {| kw_action := store_false; kw_nargs := None;
         kw_dest := Some "show_datetime"; kw_choices := None |} parser in
  let parser :=
    add_argument ["--ui-scale"]
      {| kw_action := store; kw_nargs := None;
         kw_dest := Some "ui_scale"; kw_choices := Some available_ui_scales |}
      parser in
  let parser :=
    add_argument ["--theme"]
      {| kw_action := store; kw_nargs := None;
         kw_dest := Some "theme"; kw_choices := Some available_themes |}
      parser in
  (* the argument group 'alternative modes' only groups the help text *)
  let parser :=
    add_argument ["--launch-example-notebook"]
      {| kw_action := store_true; kw_nargs := None;
         kw_dest := None; kw_choices := None |} parser in
  parser.

Definition parse_args (argv : list string) : M (gmap string pyval) :=
  args ← parser_parse_args parser (drop 1 argv);
  debug ← getattr args "debug";
  (if truthy debug then
     setLevel LoggerParent DEBUG;;
     setLevel LoggerLibav WARNING;;
     launch ← getattr args "launch_example_notebook";
     if negb (truthy launch) then logger_debug "Debug messages enabled"
     else mret ()
   else
     setLevel LoggerParent default_log_level;;
     setLevel LoggerLibav CRITICAL);;
  mret args.

Definition win_from_args (args : gmap string pyval) : M pyval :=
  file ← getattr args "file";
  dataset ← getattr args "dataset";
  lazy ← getattr args "lazy";
  theme ← getattr args "theme";
  ui_scale ← getattr args "ui_scale";
  thick_traces ← getattr args "thick_traces";
  show_datetime ← getattr args "show_datetime";
  win ← call (CallFunction "MainWindow" []
                [ ("file", file); ("initial_selection", dataset);
                  ("lazy", lazy); ("theme", theme); ("ui_scale", ui_scale);
                  ("support_increased_line_width", thick_traces);
                  ("show_datetime", show_datetime) ]);
  mret win.

(** [subprocess.Popen(cmd, stdout=subprocess.PIPE).communicate()[0]] *)
Definition popen_communicate_stdout (cmd : list pyval) : M pyval :=
  proc ← call (CallFunction "subprocess.Popen" [PyList cmd] [("stdout", PIPE)]);
  streams ← call (CallMethod proc "communicate" []);
  getitem world streams 0.

Definition launch_example_notebook : M unit :=
  path ← call (CallFunction "pkg_resources.resource_filename"
                 [PyStr "neurotic"; PyStr "example/example-notebook.ipynb"] []);
  let out := PyNone in
  (* check whether Jupyter is installed *)
  out ← try_except_FileNotFoundError
          (popen_communicate_stdout
             [PyStr "jupyter"; PyStr "notebook"; PyStr "--version"])
          (logger_error
             ("Unable to verify Jupyter is installed using " +:+ double_quote
              +:+ "jupyter notebook --version" +:+ double_quote
              +:+ ". Is it installed?") [];;
           mret out);
  if truthy out then
    (* run Jupyter on the example notebook *)
    out ← try_except_FileNotFoundError
            (popen_communicate_stdout
               [PyStr "jupyter"; PyStr "notebook"; path])
            (logger_error "Unable to locate the example notebook at {path}" [path];;
             mret out);
    mret ()
  else mret ().

Definition main : M unit :=
  args ← parse_args sys_argv;
  launch ← getattr args "launch_example_notebook";
  if truthy launch then
    launch_example_notebook
  else
    logger_info "Loading user interface";;
    app ← call (CallFunction "mkQApp" [] []);
    pixmap ← call (CallFunction "QT.QPixmap" [PyStr ":/neurotic-logo-300.png"] []);
    splash ← call (CallFunction "QT.QSplashScreen" [pixmap] []);
    call (CallMethod splash "show" []);;
    win ← win_from_args args;
    call (CallMethod win "show" []);;
    call (CallMethod splash "finish" [win]);;
    logger_info "Ready";;
    call (CallMethod app "exec_" []);;
    mret ().

Definition quick_launch (metadata blk lazy : pyval) : M unit :=
  blk ← call (CallFunction "load_dataset" [metadata; blk] [("lazy", lazy)]);
  ephyviewer_config ←
    call (CallFunction "EphyviewerConfigurator" [metadata; blk] [("lazy", lazy)]);
  call (CallMethod ephyviewer_config "show_all" []);;
  call (CallMethod ephyviewer_config "launch_ephyviewer" []);;
  mret ().

End scripts.

(** ** Observations on traces *)

Definition call_name (c : call) : string :=
  match c with
  | CallFunction f _ _ => f
  | CallMethod _ meth _ => meth
  end.

(** The calls that create or drive the Qt application. *)
Definition gui_callables : list string :=
  ["mkQApp"; "QT.QPixmap"; "QT.QSplashScreen"; "MainWindow"; "show"; "finish";
   "exec_"].

(** The calls that [launch_example_notebook] makes. *)
Definition notebook_callables : list string :=
  ["pkg_resources.resource_filename"; "subprocess.Popen"; "communicate";
   "__getitem__"].

Definition calls_one_of (names : list string) (ev : event) : bool :=
  match ev with
  | Called c _ => bool_decide (call_name c ∈ names)
  | _ => false
  end.

Definition is_popen (ev : event) : bool :=
  match ev with
  | Called (CallFunction f _ _) _ => String.eqb f "subprocess.Popen"
  | _ => false
  end.

Definition popen_count (evs : list event) : nat :=
  length (List.filter is_popen evs).

Definition is_logged (ev : event) : bool :=
  match ev with
  | Logged _ _ _ => true
  | _ => false
  end.

(** The calls under the two [try] statements of [launch_example_notebook]:
    creating the process, [communicate], and indexing its result. *)
Definition in_subprocess_try (c : call) : bool :=
  bool_decide (call_name c ∈ ["subprocess.Popen"; "communicate"; "__getitem__"]).

Definition is_FileNotFoundError (e : exn) : bool :=
  match e with
  | FileNotFoundError => true
  | _ => false
  end.

(** A run handles the exceptions of the calls it makes as follows: a
    [FileNotFoundError] out of a subprocess invocation is caught, an error
    is logged and the run returns; any other exception leaves the run, which
    ends at the call that raised it. *)
Definition handles_only_subprocess_FileNotFoundError {A : Type}
    (res : outcome A * logging * list event) : Prop :=
  ∀ c e, Called c (Raised e) ∈ events_of res →
    if is_FileNotFoundError e && in_subprocess_try c
    then (∃ a, outcome_of res = Returned a) ∧
         (∃ msg values, last (events_of res) = Some (Logged ERROR msg values))
    else outcome_of res = Raised e ∧
         last (events_of res) = Some (Called c (Raised e)).

(** The command of the version check and of the notebook launch. *)
Definition version_check_cmd : list pyval :=
  [PyStr "jupyter"; PyStr "notebook"; PyStr "--version"].

Definition resource_filename_call : call :=
  CallFunction "pkg_resources.resource_filename"
    [PyStr "neurotic"; PyStr "example/example-notebook.ipynb"] [].

Definition popen_call (cmd : list pyval) : call :=
  CallFunction "subprocess.Popen" [PyList cmd] [("stdout", PIPE)].

(** The statement that the check for Jupyter is the one guarded call: a
    [FileNotFoundError] raised when the notebook is launched would leave
    [launch_example_notebook]. *)
Definition only_version_check_guarded : Prop :=
  ∀ (world : World) h lg path,
    Called (popen_call [PyStr "jupyter"; PyStr "notebook"; path])
           (Raised FileNotFoundError)
      ∈ events_of (launch_example_notebook world h lg) →
    path ≠ PyStr "--version" →
    outcome_of (launch_example_notebook world h lg) = Raised FileNotFoundError.

(** The interaction of [quick_launch] with the data and viewer layer: the
    four calls in order, each made with what the earlier ones returned, and
    cut short at the first one that raises. *)
Inductive quick_launch_trace (metadata blk lazy : pyval)
  : list event → outcome unit → Prop :=
| ql_load_raises e :
    quick_launch_trace metadata blk lazy
      [Called (CallFunction "load_dataset" [metadata; blk] [("lazy", lazy)])
              (Raised e)]
      (Raised e)
| ql_configurator_raises blk' e :
    quick_launch_trace metadata blk lazy
      [Called (CallFunction "load_dataset" [metadata; blk] [("lazy", lazy)])
              (Returned blk');
       Called (CallFunction "EphyviewerConfigurator" [metadata; blk']
                 [("lazy", lazy)]) (Raised e)]
      (Raised e)
| ql_show_all_raises blk' config e :
    quick_launch_trace metadata blk lazy
      [Called (CallFunction "load_dataset" [metadata; blk] [("lazy", lazy)])
              (Returned blk');
       Called (CallFunction "EphyviewerConfigurator" [metadata; blk']
                 [("lazy", lazy)]) (Returned config);
       Called (CallMethod config "show_all" []) (Raised e)]
      (Raised e)
| ql_launch_raises blk' config r e :
    quick_launch_trace metadata blk lazy
      [Called (CallFunction "load_dataset" [metadata; blk] [("lazy", lazy)])
              (Returned blk');
       Called (CallFunction "EphyviewerConfigurator" [metadata; blk']
                 [("lazy", lazy)]) (Returned config);
       Called (CallMethod config "show_all" []) (Returned r);
       Called (CallMethod config "launch_ephyviewer" []) (Raised e)]
      (Raised e)
| ql_launched blk' config r r' :
    quick_launch_trace metadata blk lazy
      [Called (CallFunction "load_dataset" [metadata; blk] [("lazy", lazy)])
              (Returned blk');
       Called (CallFunction "EphyviewerConfigurator" [metadata; blk']
                 [("lazy", lazy)]) (Returned config);
       Called (CallMethod config "show_all" []) (Returned r);
       Called (CallMethod config "launch_ephyviewer" []) (Returned r')]
      (Returned ()).

(** ** Example worlds and inputs *)

(** Every call returns a fresh object. *)
Definition world_fresh : World := λ h _, Returned (PyObj (length h)).

Definition notebook_path : pyval :=
  PyStr "/opt/neurotic/example/example-notebook.ipynb".

(** The bytes [6.4] and a newline, as [jupyter notebook --version] might
    print them. *)
Definition jupyter_version_output : list Byte.byte :=
  [Byte.x36; Byte.x2e; Byte.x34; Byte.x0a].

(** A machine on which [jupyter notebook --version] prints [version_stdout]
    and the launch of the notebook ends as [launch]. *)
Definition world_jupyter (version_stdout : list Byte.byte)
    (launch : outcome pyval) : World := λ _ c,
  match c with
  | CallFunction f [PyList [_; _; PyStr a]] _ =>
      if String.eqb f "subprocess.Popen" then
        if String.eqb a "--version" then Returned (PyObj 1) else launch
      else Returned PyNone
  | CallFunction f _ _ =>
      if String.eqb f "pkg_resources.resource_filename"
      then Returned notebook_path
      else Returned PyNone
  | CallMethod _ meth _ =>
      if String.eqb meth "communicate"
      then Returned (PyTuple [PyBytes version_stdout; PyNone])
      else Returned PyNone
  end.

Definition logging_at_start : logging :=
  {| parent_level := WARNING; libav_level := WARNING |}.

Definition example_args : gmap string pyval :=
  list_to_map
    [ ("file", PyStr "metadata.yml"); ("dataset", PyNone); ("debug", PyBool false);
      ("lazy", PyBool true); ("thick_traces", PyBool false);
      ("show_datetime", PyBool false); ("ui_scale", PyStr "medium");
      ("theme", PyStr "light"); ("launch_example_notebook", PyBool false) ].

(** What the package provides, for the examples: a version, the names of
    the user-interface scales and of the themes, the default log level. *)
Definition example_version : string := "1.5.0".
Definition example_ui_scales : list string :=
  ["tiny"; "small"; "medium"; "large"; "huge"].
Definition example_themes : list string :=
  ["light"; "dark"; "original"; "printer-friendly"].

(** The namespace of a command line without options. *)
Definition default_args : gmap string pyval :=
  list_to_map
    [ ("file", PyNone); ("dataset", PyNone); ("debug", PyBool false);
      ("lazy", PyBool true); ("thick_traces", PyBool false);
      ("show_datetime", PyBool false); ("ui_scale", PyStr "medium");
      ("theme", PyStr "light"); ("launch_example_notebook", PyBool false) ].

(** The namespaces of [--debug] and of [--launch-example-notebook]. *)
Definition debug_args : gmap string pyval :=
  <["debug" := PyBool true]> default_args.
Definition notebook_args : gmap string pyval :=
  <["launch_example_notebook" := PyBool true]> default_args.

(** ** Properties of runs *)

(** Every event a computation emits satisfies [Q], wherever it runs. *)
Definition all_events {A : Type} (Q : event → Prop) (m : M A) : Prop :=
  ∀ h lg, Forall Q (events_of (m h lg)).

(** A run that handles nothing: a call that raised ended the run with its
    exception. *)
Definition propagating {A : Type} (res : outcome A * logging * list event) : Prop :=
  ∀ c e, Called c (Raised e) ∈ events_of res →
    outcome_of res = Raised e ∧ last (events_of res) = Some (Called c (Raised e)).

Definition propagates {A : Type} (m : M A) : Prop :=
  ∀ h lg, propagating (m h lg).

Definition MainWindow_call
    (file dataset lazy theme ui_scale thick_traces show_datetime : pyval) : call :=
  CallFunction "MainWindow" []
    [ ("file", file); ("initial_selection", dataset); ("lazy", lazy);
      ("theme", theme); ("ui_scale", ui_scale);
      ("support_increased_line_width", thick_traces);
      ("show_datetime", show_datetime) ].

(** ** The attributes of the parsed namespace *)

(** The attributes that [parse_args] leaves on the namespace. *)
Definition namespace_attributes : list string :=
  ["file"; "dataset"; "debug"; "lazy"; "thick_traces"; "show_datetime";
   "ui_scale"; "theme"; "launch_example_notebook"].

(** Those that the [store_true] and [store_false] options write. *)
Definition flag_attributes : list string :=
  ["debug"; "lazy"; "thick_traces"; "show_datetime"; "launch_example_notebook"].

Definition flags_are_bool (ns : gmap string pyval) : Prop :=
  ∀ k, k ∈ flag_attributes → ∃ b, ns !! k = Some (PyBool b).

(** An action that leaves the flags boolean: it stores a boolean constant,
    or it writes elsewhere, or it does not write. *)
Definition keeps_flags_bool (a : argparse.Action) : bool :=
  match argparse.class a with
  | argparse.StoreConstAction (PyBool _) => true
  | argparse.StoreAction | argparse.StoreConstAction _ =>
      negb (bool_decide (argparse.dest a ∈ flag_attributes))
  | argparse.HelpAction | argparse.VersionAction _ => true
  end.

(** The seven attributes that [win_from_args] reads, in the order in which
    it reads them. *)
Definition window_attributes : list string :=
  ["file"; "dataset"; "lazy"; "theme"; "ui_scale"; "thick_traces";
   "show_datetime"].

(** A world in which no call raises. *)
Definition never_raises (world : World) : Prop :=
  ∀ h c, ∃ v, world h c = Returned v.

(** ** Options on the command line *)

(** The argument strings before the first [--]: those that can be
    options. *)
Fixpoint before_dashdash (arg_strings : list string) : list string :=
  match arg_strings with
  | [] => []
  | arg :: rest =>
      if String.eqb arg "--" then [] else arg :: before_dashdash rest
  end.

(** The options of [parse_args] that store a constant, with the attribute
    and the value that each stores. *)
Definition flag_options : list (string * (string * bool)) :=
  [ ("--debug", ("debug", true));
    ("--no-debug", ("debug", false));
    ("--lazy", ("lazy", true));
    ("--no-lazy", ("lazy", false));
    ("--thick-traces", ("thick_traces", true));
    ("--no-thick-traces", ("thick_traces", false));
    ("--show-datetime", ("show_datetime", true));
    ("--no-show-datetime", ("show_datetime", false));
    ("--launch-example-notebook", ("launch_example_notebook", true)) ].

(** The pairs of options that [parse_args] puts in one mutually exclusive
    group. *)
Definition exclusive_options : list (string * string) :=
  [ ("--debug", "--no-debug");
    ("--lazy", "--no-lazy");
    ("--thick-traces", "--no-thick-traces");
    ("--show-datetime", "--no-show-datetime") ].

Definition is_option_class (cls : argparse.arg_class) : bool :=
  match cls with
  | argparse.O _ _ _ => true
  | _ => false
  end.

(** Action [i] is the one writer of its destination that can succeed once
    it has been taken: any other action that writes there takes no argument
    and conflicts with [i]. *)
Definition sole_writer (p : argparse.ArgumentParser) (i : nat) (d : string)
  : bool :=
  forallb (λ '(id, a),
             (id =? i)%nat
             || negb (String.eqb (argparse.dest a) d)
             || match argparse.class a with
                | argparse.HelpAction | argparse.VersionAction _ => true
                | _ =>
                    match argparse.nargs a with
                    | argparse.NargsZero =>
                        bool_decide (i ∈ argparse.action_conflicts p id)
                    | _ => false
                    end
                end)
          (imap (λ id a, (id, a)) (argparse._actions p)).

(** The options of [parse_args] that make the parser exit, the help that
    [ArgumentParser] registers and the version, with what the exit
    reports. *)
Definition exit_options (__version__ : string) : list (string * exit_reason) :=
  [ ("-h", HelpRequested);
    ("--help", HelpRequested);
    ("-V", VersionRequested ("neurotic " +:+ __version__));
    ("--version", VersionRequested ("neurotic " +:+ __version__)) ].

(** A machine without Jupyter: starting a subprocess raises
    [FileNotFoundError]. *)
Definition world_without_jupyter : World := λ _ c,
  match c with
  | CallFunction f _ _ =>
      if String.eqb f "subprocess.Popen" then Raised FileNotFoundError
      else if String.eqb f "pkg_resources.resource_filename"
           then Returned notebook_path
           else Returned PyNone
  | CallMethod _ _ _ => Returned PyNone
  end.

(** A namespace that lacks [theme]. *)
Definition args_without_theme : gmap string pyval := delete "theme" example_args.

(** An argument string that does not start with [-]: a file name, a dataset
    name, a value. *)
Definition is_plain (s : string) : bool :=
  match s with
  | String "-"%char _ => false
  | _ => true
  end.

(** The options of [parse_args] that take one of a list of values. *)
Definition choice_options (available_ui_scales available_themes : list string)
  : list (string * list string) :=
  [ ("--ui-scale", available_ui_scales); ("--theme", available_themes) ].

(** ** The GUI path of main *)

(** The [MainWindow] call that [win_from_args] makes from a namespace that
    has the seven attributes. *)
Definition window_call (args : gmap string pyval) : option call :=
  file ← args !! "file";
  dataset ← args !! "dataset";
  lazy ← args !! "lazy";
  theme ← args !! "theme";
  ui_scale ← args !! "ui_scale";
  thick_traces ← args !! "thick_traces";
  show_datetime ← args !! "show_datetime";
  Some (MainWindow_call file dataset lazy theme ui_scale thick_traces
                        show_datetime).

(** What the eight calls of the GUI path returned. *)
Record gui_objects : Type := GuiObjects {
  o_app : pyval;
  o_pixmap : pyval;
  o_splash : pyval;
  o_splash_show : pyval;
  o_win : pyval;
  o_win_show : pyval;
  o_finish : pyval;
  o_exec : pyval;
}.

(** The GUI path of [main] when every call returns: its two log messages
    and eight calls in the order of the source, each call on the objects
    that the earlier calls returned, with [window] for the call of
    [MainWindow]. *)
Definition gui_run (window : call) (o : gui_objects) : list event :=
  [ Logged INFO "Loading user interface" [];
    Called (CallFunction "mkQApp" [] []) (Returned (o_app o));
    Called (CallFunction "QT.QPixmap" [PyStr ":/neurotic-logo-300.png"] [])
           (Returned (o_pixmap o));
    Called (CallFunction "QT.QSplashScreen" [o_pixmap o] [])
           (Returned (o_splash o));
    Called (CallMethod (o_splash o) "show" []) (Returned (o_splash_show o));
    Called window (Returned (o_win o));
    Called (CallMethod (o_win o) "show" []) (Returned (o_win_show o));
    Called (CallMethod (o_splash o) "finish" [o_win o]) (Returned (o_finish o));
    Logged INFO "Ready" [];
    Called (CallMethod (o_app o) "exec_" []) (Returned (o_exec o)) ].

(** [steps] with outcome [out] is a run of the script [full]: all of it,
    returning, or its steps up to a call that raises instead of returning,
    ending there with the exception of that call. *)
Definition run_of (full steps : list event) (out : outcome unit) : Prop :=
  (steps = full ∧ out = Returned ())
  ∨ ∃ pre c r rest e,
      full = pre ++ Called c r :: rest
      ∧ steps = pre ++ [Called c (Raised e)]
      ∧ out = Raised e.

Definition is_SetLevel (ev : event) : bool :=
  match ev with
  | SetLevel _ _ => true
  | _ => false
  end.

(** * Properties *)

(** ** Events of composed computations *)

Section composition.

Context {A B : Type} (Q : event → Prop).

Lemma all_events_ret (a : A) : all_events Q (mret a).
Proof. intros h lg. constructor. Qed.

Lemma all_events_raise (e : exn) : all_events Q (raise (A:=A) e).
Proof. intros h lg. constructor. Qed.

Lemma all_events_emit (ev : event) : Q ev → all_events Q (emit ev).
Proof. intros Hev h lg. by repeat constructor. Qed.

Lemma all_events_setLevel lgr level :
  Q (SetLevel lgr level) → all_events Q (setLevel lgr level).
Proof. intros Hev h lg. by repeat constructor. Qed.

Lemma all_events_call (w : World) (c : call) :
  (∀ r, Q (Called c r)) → all_events Q (call_out w c).
Proof. intros Hev h lg. by repeat constructor. Qed.

Lemma all_events_getattr (args : gmap string pyval) (name : string) :
  all_events Q (getattr args name).
Proof. intros h lg. unfold getattr. destruct (args !! name); constructor. Qed.

Lemma all_events_getitem (w : World) (v : pyval) (i : nat) :
  (∀ c r, call_name c = "__getitem__" → Q (Called c r)) →
  all_events Q (getitem w v i).
Proof.
  intros Hev h lg. unfold getitem.
  destruct v as [| | | s|b|l|l|]; try constructor.
  - destruct (String.get i s); constructor.
  - destruct (b !! i); constructor.
  - destruct (l !! i); constructor.
  - destruct (l !! i); constructor.
  - by apply Hev.
  - constructor.
Qed.

Lemma all_events_parser_parse_args p args :
  (∀ why, Q (ParserExit why)) → all_events Q (parser_parse_args p args).
Proof.
  intros Hev h lg. unfold parser_parse_args.
  destruct (argparse.parse_args p args); repeat constructor. apply Hev.
Qed.

Lemma all_events_bind (m : M A) (f : A → M B) :
  all_events Q m → (∀ a, all_events Q (f a)) → all_events Q (m ≫= f).
Proof.
  intros Hm Hf h lg. specialize (Hm h lg).
  unfold mbind, M_bind, events_of in *.
  destruct (m h lg) as [[[a|e] lg1] ev1]; simpl in *; [|done].
  specialize (Hf a (h ++ ev1) lg1). unfold events_of in Hf.
  destruct (f a (h ++ ev1) lg1) as [[r lg2] ev2]; simpl in *.
  by apply Forall_app.
Qed.

Lemma all_events_if (c : bool) (m1 m2 : M A) :
  all_events Q m1 → all_events Q m2 → all_events Q (if c then m1 else m2).
Proof. by destruct c. Qed.

Lemma all_events_try (body handler : M A) :
  all_events Q body → all_events Q handler →
  all_events Q (try_except_FileNotFoundError body handler).
Proof.
  intros Hb Hh h lg. specialize (Hb h lg).
  unfold try_except_FileNotFoundError, events_of in *.
  destruct (body h lg) as [[[a|[]] lg1] ev1]; simpl in *; try done.
  specialize (Hh (h ++ ev1) lg1). unfold events_of in Hh.
  destruct (handler (h ++ ev1) lg1) as [[r lg2] ev2]; simpl in *.
  by apply Forall_app.
Qed.

End composition.

Section propagation.

Context {A B : Type}.

Lemma propagates_ret (a : A) : propagates (mret a).
Proof. intros h lg c e Hin. by apply elem_of_nil in Hin. Qed.

Lemma propagates_raise (e : exn) : propagates (raise (A:=A) e).
Proof. intros h lg c e' Hin. by apply elem_of_nil in Hin. Qed.

Lemma propagates_emit (ev : event) :
  (∀ c r, ev ≠ Called c r) → propagates (emit ev).
Proof.
  intros Hev h lg c e Hin. apply list_elem_of_singleton in Hin.
  by destruct (Hev c (Raised e)).
Qed.

Lemma propagates_call (w : World) (c : call) : propagates (call_out w c).
Proof.
  intros h lg c' e Hin. apply list_elem_of_singleton in Hin.
  injection Hin as <- Hr. unfold call_out, outcome_of, events_of. simpl.
  by rewrite <- Hr.
Qed.

Lemma propagates_if (c : bool) (m1 m2 : M A) :
  propagates m1 → propagates m2 → propagates (if c then m1 else m2).
Proof. by destruct c. Qed.

Lemma propagates_bind (m : M A) (f : A → M B) :
  propagates m → (∀ a, propagates (f a)) → propagates (m ≫= f).
Proof.
  intros Hm Hf h lg c e. specialize (Hm h lg c e).
  unfold mbind, M_bind, propagating, outcome_of, events_of in *.
  destruct (m h lg) as [[[a|e0] lg1] ev1]; simpl in *;
    [|by intros Hin; destruct (Hm Hin) as [[= ->] ?]].
  specialize (Hf a (h ++ ev1) lg1 c e).
  unfold propagating, outcome_of, events_of in Hf.
  destruct (f a (h ++ ev1) lg1) as [[r lg2] ev2]; simpl in *.
  rewrite elem_of_app. intros [Hin|Hin].
  - by destruct (Hm Hin).
  - destruct (Hf Hin) as [-> Hlast]. split; [done|].
    by rewrite last_app, Hlast.
Qed.

End propagation.

Lemma propagates_getattr (args : gmap string pyval) (name : string) :
  propagates (getattr args name).
Proof.
  unfold getattr. destruct (args !! name);
    [apply propagates_ret|apply propagates_raise].
Qed.

Lemma propagates_getitem (w : World) (v : pyval) (i : nat) :
  propagates (getitem w v i).
Proof.
  unfold getitem. destruct v as [| | | s|b|l|l|];
    try apply propagates_raise.
  - destruct (String.get i s); [apply propagates_ret|apply propagates_raise].
  - destruct (b !! i); [apply propagates_ret|apply propagates_raise].
  - destruct (l !! i); [apply propagates_ret|apply propagates_raise].
  - destruct (l !! i); [apply propagates_ret|apply propagates_raise].
  - apply propagates_call.
Qed.

(** A run without a raised call, as that of a computation that returned and
    handles nothing. *)
Lemma propagating_returned {A : Type} (res : outcome A * logging * list event)
    (a : A) c e :
  propagating res → outcome_of res = Returned a →
  Called c (Raised e) ∉ events_of res.
Proof. intros Hp Hret Hin. destruct (Hp c e Hin) as [Hr _]. congruence. Qed.

Ltac propagates_step :=
  first
    [ apply propagates_bind; [|intros ?]
    | apply propagates_if
    | apply propagates_ret
    | apply propagates_raise
    | apply propagates_getattr
    | apply propagates_getitem
    | apply propagates_call
    | apply propagates_emit; by intros ? ? ].

Ltac all_events_step :=
  first
    [ apply all_events_bind; [|intros ?]
    | apply all_events_try
    | apply all_events_if
    | apply all_events_ret
    | apply all_events_raise
    | apply all_events_getattr
    | apply all_events_parser_parse_args; intros ?
    | apply all_events_setLevel
    | apply all_events_emit
    | apply all_events_getitem; intros ? ? ?
    | apply all_events_call; intros ? ].


(** ** Handled and unhandled exceptions *)

Section handling.

Context {A : Type}.

Lemma handles_quiet (res : outcome A * logging * list event) :
  (∀ c e, Called c (Raised e) ∉ events_of res) →
  handles_only_subprocess_FileNotFoundError res.
Proof. intros Hquiet c e Hin. by destruct (Hquiet c e). Qed.

Lemma handles_propagating (res : outcome A * logging * list event) :
  propagating res →
  Forall (λ ev, ∀ c r, ev = Called c r → in_subprocess_try c = false)
         (events_of res) →
  handles_only_subprocess_FileNotFoundError res.
Proof.
  intros Hprop Hcalls c e Hin.
  rewrite Forall_forall in Hcalls.
  rewrite (Hcalls _ Hin c (Raised e) eq_refl), andb_false_r.
  by apply Hprop.
Qed.

(** The exception of the guarded computation was caught. *)
Lemma handles_caught {B : Type} (pre evs : list event) (a : A) lg lg' msg values :
  (∀ c e, Called c (Raised e) ∉ pre) →
  Forall (λ ev, ∃ c r, ev = Called c r ∧ in_subprocess_try c = true) evs →
  propagating (Raised FileNotFoundError : outcome B, lg, evs) →
  handles_only_subprocess_FileNotFoundError
    (Returned a, lg', pre ++ evs ++ [Logged ERROR msg values]).
Proof.
  intros Hpre Hcalls Hprop c e.
  unfold events_of, outcome_of. simpl.
  rewrite !elem_of_app, list_elem_of_singleton.
  intros [Hin|[Hin|[=]]]; [by destruct (Hpre c e)|].
  destruct (Hprop c e Hin) as [[= <-] _].
  rewrite Forall_forall in Hcalls.
  destruct (Hcalls _ Hin) as (c' & r' & [= <- <-] & ->). simpl.
  split; [by eexists|]. exists msg, values.
  by rewrite !app_assoc, last_snoc.
Qed.

(** The exception of the guarded computation was not a
    [FileNotFoundError]. *)
Lemma handles_escaped {B : Type} (pre evs : list event) (e : exn) lg lg' :
  (∀ c e, Called c (Raised e) ∉ pre) →
  is_FileNotFoundError e = false →
  propagating (Raised e : outcome B, lg, evs) →
  handles_only_subprocess_FileNotFoundError
    (Raised e : outcome A, lg', pre ++ evs).
Proof.
  intros Hpre Hother Hprop c e'.
  unfold events_of, outcome_of. simpl.
  rewrite elem_of_app.
  intros [Hin|Hin]; [by destruct (Hpre c e')|].
  destruct (Hprop c e' Hin) as [[= <-] Hlast].
  unfold events_of in Hlast. simpl in Hlast.
  rewrite Hother. simpl. by rewrite last_app, Hlast.
Qed.

Lemma handles_bind_no_call {B : Type} (m : M B) (f : B → M A) :
  all_events (λ ev, ∀ c r, ev ≠ Called c r) m →
  (∀ b h lg, handles_only_subprocess_FileNotFoundError (f b h lg)) →
  ∀ h lg, handles_only_subprocess_FileNotFoundError ((m ≫= f) h lg).
Proof.
  intros Hm Hf h lg c e. specialize (Hm h lg).
  rewrite Forall_forall in Hm.
  unfold mbind, M_bind, outcome_of, events_of in *.
  destruct (m h lg) as [[[b|e0] lg1] ev1]; simpl in *.
  - specialize (Hf b (h ++ ev1) lg1 c e). unfold outcome_of, events_of in Hf.
    destruct (f b (h ++ ev1) lg1) as [[r lg2] ev2]; simpl in *.
    rewrite elem_of_app. intros [Hin|Hin]; [by destruct (Hm _ Hin c (Raised e))|].
    specialize (Hf Hin).
    destruct (is_FileNotFoundError e && in_subprocess_try c).
    + destruct Hf as [Hret (msg & values & Hlast)]. split; [done|].
      exists msg, values. by rewrite last_app, Hlast.
    + destruct Hf as [Hret Hlast]. split; [done|]. by rewrite last_app, Hlast.
  - intros Hin. by destruct (Hm _ Hin c (Raised e)).
Qed.

End handling.

Section properties.

Context (__version__ : string) (default_log_level : Z).
Context (available_ui_scales available_themes : list string).
Context (world : World).

Local Abbreviation parse_args' :=
  (parse_args __version__ default_log_level available_ui_scales available_themes).
Local Abbreviation main' :=
  (main __version__ default_log_level available_ui_scales available_themes world).

(** ** The monad *)

Lemma bind_returned {A B : Type} (m : M A) (f : A → M B) h lg a lg1 ev1 :
  m h lg = (Returned a, lg1, ev1) →
  (m ≫= f) h lg =
    (let '(r, lg2, ev2) := f a (h ++ ev1) lg1 in (r, lg2, ev1 ++ ev2)).
Proof. intros Hm. unfold mbind, M_bind. by rewrite Hm. Qed.

Lemma getattr_bind {B : Type} (args : gmap string pyval) (name : string)
    (v : pyval) (f : pyval → M B) h lg :
  args !! name = Some v → (getattr args name ≫= f) h lg = f v h lg.
Proof.
  intros Hv. unfold getattr, mbind, M_bind, mret, M_ret. rewrite Hv.
  rewrite app_nil_r. by destruct (f v h lg) as [[r lg2] ev2].
Qed.

Lemma bind_raised {A B : Type} (m : M A) (f : A → M B) h lg e lg1 ev1 :
  m h lg = (Raised e, lg1, ev1) → (m ≫= f) h lg = (Raised e, lg1, ev1).
Proof. intros Hm. unfold mbind, M_bind. by rewrite Hm. Qed.

Lemma ret_bind {A B : Type} (a : A) (f : A → M B) h lg :
  (mret a ≫= f) h lg = f a h lg.
Proof.
  unfold mbind, M_bind, mret, M_ret. rewrite app_nil_r.
  by destruct (f a h lg) as [[r lg2] ev2].
Qed.

Lemma emit_bind {B : Type} (ev : event) (f : () → M B) h lg :
  (emit ev ≫= f) h lg =
    (let '(r, lg2, ev2) := f () (h ++ [ev]) lg in (r, lg2, ev :: ev2)).
Proof. reflexivity. Qed.

Lemma call_bind {B : Type} (c : call) (f : pyval → M B) h lg :
  (call_out world c ≫= f) h lg =
    match world h c with
    | Returned a =>
        let '(r, lg2, ev2) := f a (h ++ [Called c (Returned a)]) lg in
        (r, lg2, Called c (Returned a) :: ev2)
    | Raised e => (Raised e, lg, [Called c (Raised e)])
    end.
Proof.
  unfold mbind, M_bind, call_out. by destruct (world h c).
Qed.

Lemma getattr_bind_cases {B : Type} (args : gmap string pyval) (name : string)
    (f : pyval → M B) h lg :
  (getattr args name ≫= f) h lg =
    match args !! name with
    | Some v => f v h lg
    | None => (Raised (AttributeError name), lg, [])
    end.
Proof.
  destruct (args !! name) as [v|] eqn:Hv; [by apply getattr_bind|].
  unfold getattr, mbind, M_bind, raise. by rewrite Hv.
Qed.

Lemma bind_assoc {A B C : Type} (m : M A) (f : A → M B) (g : B → M C) h lg :
  ((m ≫= f) ≫= g) h lg = (m ≫= λ a, f a ≫= g) h lg.
Proof.
  unfold mbind, M_bind.
  destruct (m h lg) as [[[a|e] lg1] ev1]; [|done].
  destruct (f a (h ++ ev1) lg1) as [[[b|e] lg2] ev2]; [|done].
  rewrite <- app_assoc.
  destruct (g b (h ++ ev1 ++ ev2) lg2) as [[r lg3] ev3].
  by rewrite <- app_assoc.
Qed.

(** ** quick_launch *)

(** C1: [quick_launch(metadata, blk, lazy)] reaches the data and viewer layer
    through [load_dataset(metadata, blk, lazy=lazy)], then
    [EphyviewerConfigurator(metadata, blk, lazy=lazy)] on the block that
    [load_dataset] returned, then [show_all()], then [launch_ephyviewer()] on
    that configurator, in this order and with no other call; the sequence
    stops at the first call that raises, and logging is left alone. *)
Theorem quick_launch_calls_in_order (metadata blk lazy : pyval) h lg :
  quick_launch_trace metadata blk lazy
    (events_of (quick_launch world metadata blk lazy h lg))
    (outcome_of (quick_launch world metadata blk lazy h lg))
  ∧ logging_of (quick_launch world metadata blk lazy h lg) = lg.
Proof.
  unfold quick_launch, mbind, M_bind, call_out, mret, M_ret.
  unfold events_of, outcome_of, logging_of.
  destruct (world h _) as [blk'|e1]; simpl; [|split; [constructor|done]].
  destruct (world _ (CallFunction "EphyviewerConfigurator" _ _)) as [config|e2];
    simpl; [|split; [constructor|done]].
  destruct (world _ (CallMethod config "show_all" _)) as [r|e3];
    simpl; [|split; [constructor|done]].
  destruct (world _ (CallMethod config "launch_ephyviewer" _)) as [r'|e4];
    simpl; split; (constructor || done).
Qed.

(** ** parse_args *)

Lemma parser_parse_args_cases (p : argparse.ArgumentParser) (args : list string) h lg :
  (∃ ns, argparse.parse_args p args = argparse.Ok ns ∧
         parser_parse_args p args h lg = (Returned ns, lg, []))
  ∨ (∃ e evs, parser_parse_args p args h lg = (Raised e, lg, evs)).
Proof.
  unfold parser_parse_args.
  destruct (argparse.parse_args p args) as [ns|why|e]; [left|right|right]; eauto.
Qed.

(** What a returning [parse_args] has done, by the truth value of
    [args.debug]. *)
Lemma parse_args_returned (argv : list string) h lg args :
  outcome_of (parse_args' argv h lg) = Returned args →
  ∃ debug, args !! "debug" = Some debug ∧
    if truthy debug then
      ∃ launch, args !! "launch_example_notebook" = Some launch ∧
        logging_of (parse_args' argv h lg)
          = {| parent_level := DEBUG; libav_level := WARNING |} ∧
        events_of (parse_args' argv h lg)
          = [SetLevel LoggerParent DEBUG; SetLevel LoggerLibav WARNING]
            ++ (if truthy launch then []
                else [Logged DEBUG "Debug messages enabled" []])
    else
      logging_of (parse_args' argv h lg)
        = {| parent_level := default_log_level; libav_level := CRITICAL |} ∧
      events_of (parse_args' argv h lg)
        = [SetLevel LoggerParent default_log_level; SetLevel LoggerLibav CRITICAL].
Proof.
  unfold parse_args.
  destruct (parser_parse_args_cases
              (parser __version__ available_ui_scales available_themes)
              (drop 1 argv) h lg) as [(ns & _ & Hp)|(e & evs & Hp)].
  - rewrite (bind_returned _ _ _ _ _ _ _ Hp).
    unfold getattr, mbind, M_bind, mret, M_ret, setLevel, logger_debug, emit,
      raise, outcome_of, logging_of, events_of; simpl.
    destruct (ns !! "debug") as [debug|] eqn:Hdebug; simpl; [|done].
    destruct (truthy debug) eqn:Htruthy; simpl.
    + destruct (ns !! "launch_example_notebook") as [launch|] eqn:Hlaunch;
        simpl; [|done].
      destruct (truthy launch) eqn:Hl; simpl; intros [= <-];
        exists debug; rewrite Htruthy; (split; [done|]);
        exists launch; by rewrite Hl.
    + intros [= <-]. exists debug. by rewrite Htruthy.
  - by rewrite (bind_raised _ _ _ _ _ _ _ Hp).
Qed.

(** C3: when the parsed [debug] flag is [True], [parse_args] sets the level
    of the parent logger to [logging.DEBUG] and that of the ['libav'] logger
    to [logging.WARNING]; when it is [False], it sets them to
    [default_log_level] and [logging.CRITICAL]. *)
Theorem parse_args_toggles_logging_levels (argv : list string) h lg args :
  outcome_of (parse_args' argv h lg) = Returned args →
  (args !! "debug" = Some (PyBool true) →
     logging_of (parse_args' argv h lg)
       = {| parent_level := DEBUG; libav_level := WARNING |} ∧
     [SetLevel LoggerParent DEBUG; SetLevel LoggerLibav WARNING]
       `prefix_of` events_of (parse_args' argv h lg))
  ∧ (args !! "debug" = Some (PyBool false) →
     logging_of (parse_args' argv h lg)
       = {| parent_level := default_log_level; libav_level := CRITICAL |} ∧
     events_of (parse_args' argv h lg)
       = [SetLevel LoggerParent default_log_level;
          SetLevel LoggerLibav CRITICAL]).
Proof.
  intros Hret.
  destruct (parse_args_returned argv h lg args Hret) as (debug & Hdebug & Hrun).
  split; intros Hflag; rewrite Hflag in Hdebug; injection Hdebug as <-;
    simpl in Hrun.
  - destruct Hrun as (launch & _ & Hlg & Hev). split; [done|].
    rewrite Hev. by eexists.
  - done.
Qed.

(** C9: a call of [parse_args] that returns leaves the logging levels in
    exactly one of two configurations, whatever they were before: parent at
    [DEBUG] and ['libav'] at [WARNING] when debugging was requested, parent
    at [default_log_level] and ['libav'] at [CRITICAL] when it was not; both
    levels have been set by the call. *)
Theorem parse_args_overwrites_logging_levels (argv : list string) h lg args :
  outcome_of (parse_args' argv h lg) = Returned args →
  ∃ debug, args !! "debug" = Some debug ∧
    (logging_of (parse_args' argv h lg)
       = (if truthy debug
          then {| parent_level := DEBUG; libav_level := WARNING |}
          else {| parent_level := default_log_level; libav_level := CRITICAL |}))
    ∧ (logging_of (parse_args' argv h lg)
         = {| parent_level := DEBUG; libav_level := WARNING |}
       ↔ ¬ logging_of (parse_args' argv h lg)
           = {| parent_level := default_log_level; libav_level := CRITICAL |})
    ∧ SetLevel LoggerParent (parent_level (logging_of (parse_args' argv h lg)))
        ∈ events_of (parse_args' argv h lg)
    ∧ SetLevel LoggerLibav (libav_level (logging_of (parse_args' argv h lg)))
        ∈ events_of (parse_args' argv h lg).
Proof.
  intros Hret.
  destruct (parse_args_returned argv h lg args Hret) as (debug & Hdebug & Hrun).
  exists debug. split; [done|].
  destruct (truthy debug).
  - destruct Hrun as (launch & _ & -> & ->). simpl.
    split; [done|]. split; [|set_solver].
    split; [by intros _ [=]|done].
  - destruct Hrun as [-> ->]. simpl.
    split; [done|]. split; [|set_solver].
    split; [by intros [=]|by intros []].
Qed.

(** C8: two argument vectors that differ only in their element at index 0
    give the same result and the same effects: only [argv[1:]] reaches the
    parser. *)
Theorem parse_args_ignores_argv0 (argv argv' : list string) h lg :
  (∀ i, i ≠ 0 → argv !! i = argv' !! i) →
  parse_args __version__ default_log_level available_ui_scales available_themes
    argv h lg
  = parse_args __version__ default_log_level available_ui_scales
      available_themes argv' h lg.
Proof.
  intros Hsame.
  assert (drop 1 argv = drop 1 argv') as Hdrop.
  { apply list_eq. intros i. rewrite !lookup_drop. by apply Hsame. }
  unfold parse_args. by rewrite Hdrop.
Qed.

Lemma parser_defaults :
  argparse.parse_args (parser __version__ available_ui_scales available_themes) []
  = argparse.Ok default_args.
Proof. vm_compute. reflexivity. Qed.

(** C7: for an [argv] that holds the program name only, [parse_args] returns
    [file=None], [dataset=None], [debug=False], [lazy=True],
    [thick_traces=False], [show_datetime=False], [ui_scale='medium'],
    [theme='light'] and [launch_example_notebook=False], and nothing else. *)
Theorem parse_args_defaults (prog : string) h lg :
  outcome_of (parse_args' [prog] h lg) = Returned default_args.
Proof.
  unfold parse_args, parser_parse_args. simpl drop.
  rewrite parser_defaults. reflexivity.
Qed.

(** ** win_from_args *)

(** C6: [win_from_args(args)] returns what [MainWindow] returns when called
    with [file=args.file], [initial_selection=args.dataset],
    [lazy=args.lazy], [theme=args.theme], [ui_scale=args.ui_scale],
    [support_increased_line_width=args.thick_traces] and
    [show_datetime=args.show_datetime]; that call is its only effect. *)
Theorem win_from_args_calls_MainWindow (args : gmap string pyval)
    (file dataset lazy theme ui_scale thick_traces show_datetime : pyval) h lg :
  args !! "file" = Some file →
  args !! "dataset" = Some dataset →
  args !! "lazy" = Some lazy →
  args !! "theme" = Some theme →
  args !! "ui_scale" = Some ui_scale →
  args !! "thick_traces" = Some thick_traces →
  args !! "show_datetime" = Some show_datetime →
  win_from_args world args h lg =
    (world h (MainWindow_call file dataset lazy theme ui_scale thick_traces
                              show_datetime),
     lg,
     [Called (MainWindow_call file dataset lazy theme ui_scale thick_traces
                              show_datetime)
             (world h (MainWindow_call file dataset lazy theme ui_scale
                                       thick_traces show_datetime))]).
Proof.
  intros Hfile Hdataset Hlazy Htheme Hui Hthick Hshow.
  unfold win_from_args, getattr.
  rewrite Hfile, Hdataset, Hlazy, Htheme, Hui, Hthick, Hshow.
  unfold mbind, M_bind, mret, M_ret, call_out, MainWindow_call. simpl.
  rewrite !app_nil_r.
  by destruct (world h _).
Qed.

Lemma win_from_args_propagates (args : gmap string pyval) :
  propagates (win_from_args world args).
Proof. unfold win_from_args. repeat propagates_step. Qed.

Lemma quick_launch_propagates (metadata blk lazy : pyval) :
  propagates (quick_launch world metadata blk lazy).
Proof. unfold quick_launch. repeat propagates_step. Qed.

Lemma popen_communicate_stdout_propagates (cmd : list pyval) :
  propagates (popen_communicate_stdout world cmd).
Proof. unfold popen_communicate_stdout. repeat propagates_step. Qed.

Lemma parse_args_makes_no_call (Q : event → Prop) (argv : list string) :
  (∀ lgr level, Q (SetLevel lgr level)) →
  (∀ level msg values, Q (Logged level msg values)) →
  (∀ why, Q (ParserExit why)) →
  all_events Q (parse_args' argv).
Proof.
  intros Hset Hlog Hexit. unfold parse_args, logger_debug.
  repeat all_events_step; auto.
Qed.

(** ** launch_example_notebook *)

(** The runs of [launch_example_notebook], by the answers of the world. *)
Lemma launch_example_notebook_run h lg :
  match world h resource_filename_call with
  | Raised e =>
      launch_example_notebook world h lg
        = (Raised e, lg, [Called resource_filename_call (Raised e)])
  | Returned path =>
      let ev0 := Called resource_filename_call (Returned path) in
      match popen_communicate_stdout world version_check_cmd (h ++ [ev0]) lg with
      | (Returned out, lg1, ev1) =>
          if truthy out then
            match popen_communicate_stdout world
                    [PyStr "jupyter"; PyStr "notebook"; path]
                    ((h ++ [ev0]) ++ ev1) lg1 with
            | (Returned _, lg2, ev2) =>
                launch_example_notebook world h lg
                  = (Returned (), lg2, ev0 :: ev1 ++ ev2)
            | (Raised FileNotFoundError, lg2, ev2) =>
                ∃ msg, launch_example_notebook world h lg
                  = (Returned (), lg2,
                     ev0 :: ev1 ++ ev2 ++ [Logged ERROR msg [path]])
            | (Raised e, lg2, ev2) =>
                launch_example_notebook world h lg
                  = (Raised e, lg2, ev0 :: ev1 ++ ev2)
            end
          else
            launch_example_notebook world h lg = (Returned (), lg1, ev0 :: ev1)
      | (Raised FileNotFoundError, lg1, ev1) =>
          ∃ msg, launch_example_notebook world h lg
            = (Returned (), lg1, ev0 :: ev1 ++ [Logged ERROR msg []])
      | (Raised e, lg1, ev1) =>
          launch_example_notebook world h lg = (Raised e, lg1, ev0 :: ev1)
      end
  end.
Proof.
  unfold launch_example_notebook, version_check_cmd, resource_filename_call.
  generalize (popen_communicate_stdout world). intros pcs.
  unfold try_except_FileNotFoundError, logger_error, emit, call_out,
    mbind, M_bind, mret, M_ret.
  destruct (world h _) as [path|e]; [|done]. cbv zeta.
  destruct (pcs _ (h ++ _) lg) as [[[out|e1] lg1] ev1].
  - destruct (truthy out); simpl.
    + destruct (pcs _ _ lg1) as [[[out2|e2] lg2] ev2]; simpl.
      * by rewrite app_nil_r.
      * destruct e2; simpl; rewrite ?app_nil_r, <- ?app_assoc; eauto.
    + by rewrite app_nil_r.
  - destruct e1; simpl; rewrite ?app_nil_r; eauto.
Qed.

Lemma popen_communicate_stdout_calls (cmd : list pyval) :
  all_events (λ ev, ∃ c r, ev = Called c r ∧ in_subprocess_try c = true)
             (popen_communicate_stdout world cmd).
Proof.
  unfold popen_communicate_stdout. repeat all_events_step.
  - by eexists _, _.
  - by eexists _, _.
  - eexists _, _. split; [done|].
    unfold in_subprocess_try. by match goal with H : _ |- _ => rewrite H end.
Qed.

Lemma launch_example_notebook_handles h lg :
  handles_only_subprocess_FileNotFoundError (launch_example_notebook world h lg).
Proof.
  pose proof (launch_example_notebook_run h lg) as Hrun.
  destruct (world h resource_filename_call) as [path|e]; simpl in Hrun.
  2: { rewrite Hrun. apply handles_propagating.
    - intros c e' Hin. apply list_elem_of_singleton in Hin. by injection Hin as <- <-.
    - repeat constructor. by intros c r [= <- <-]. }
  set (ev0 := Called resource_filename_call (Returned path)) in *.
  assert (∀ c e, Called c (Raised e) ∉ [ev0]) as Hev0.
  { intros c e Hin. by apply list_elem_of_singleton in Hin. }
  pose proof (popen_communicate_stdout_propagates version_check_cmd (h ++ [ev0]) lg)
    as Hprop1.
  pose proof (popen_communicate_stdout_calls version_check_cmd (h ++ [ev0]) lg)
    as Hcalls1.
  destruct (popen_communicate_stdout world version_check_cmd (h ++ [ev0]) lg)
    as [[[out|e1] lg1] ev1].
  - assert (∀ c e, Called c (Raised e) ∉ ev0 :: ev1) as Hquiet1.
    { intros c e [Hin|Hin]%elem_of_cons; [done|].
      by apply (propagating_returned _ out c e Hprop1). }
    destruct (truthy out); [|rewrite Hrun; by apply handles_quiet].
    pose proof (popen_communicate_stdout_propagates
                  [PyStr "jupyter"; PyStr "notebook"; path]
                  ((h ++ [ev0]) ++ ev1) lg1) as Hprop2.
    pose proof (popen_communicate_stdout_calls
                  [PyStr "jupyter"; PyStr "notebook"; path]
                  ((h ++ [ev0]) ++ ev1) lg1) as Hcalls2.
    destruct (popen_communicate_stdout world _ ((h ++ [ev0]) ++ ev1) lg1)
      as [[[out2|e2] lg2] ev2].
    + rewrite Hrun. apply handles_quiet. intros c e Hin.
      unfold events_of in Hin. simpl in Hin.
      change (ev0 :: ev1 ++ ev2) with ((ev0 :: ev1) ++ ev2) in Hin.
      apply elem_of_app in Hin as [Hin|Hin]; [by destruct (Hquiet1 c e)|].
      by apply (propagating_returned _ out2 c e Hprop2).
    + destruct e2; [destruct Hrun as [msg Hrun]|..]; rewrite Hrun;
        change (ev0 :: ev1 ++ ?l) with ((ev0 :: ev1) ++ l);
        first [ by eapply handles_caught | by eapply handles_escaped ].
  - destruct e1; [destruct Hrun as [msg Hrun]|..]; rewrite Hrun;
      change (ev0 :: ?l) with ([ev0] ++ l);
      first [ by eapply handles_caught | by eapply handles_escaped ].
Qed.

Lemma main_handles (sys_argv : list string) h lg :
  handles_only_subprocess_FileNotFoundError (main' sys_argv h lg).
Proof.
  revert h lg. unfold main.
  apply handles_bind_no_call; [by apply parse_args_makes_no_call|].
  intros args. apply handles_bind_no_call.
  { eapply all_events_getattr. }
  intros launch h lg. destruct (truthy launch).
  { apply launch_example_notebook_handles. }
  apply handles_propagating.
  - revert h lg. unfold logger_info, win_from_args. repeat propagates_step.
  - revert h lg. unfold logger_info, win_from_args.
    repeat all_events_step; intros ? ? Heq; by simplify_eq.
Qed.

Lemma popen_count_app (l1 l2 : list event) :
  popen_count (l1 ++ l2) = popen_count l1 + popen_count l2.
Proof. unfold popen_count. by rewrite List.filter_app, length_app. Qed.

Lemma popen_count_none (l : list event) :
  Forall (λ ev, is_popen ev = false) l → popen_count l = 0.
Proof.
  unfold popen_count. induction 1 as [|ev l Hev _ IH]; [done|].
  simpl. by rewrite Hev.
Qed.

Lemma popen_communicate_stdout_popen_count (cmd : list pyval) h lg :
  popen_count (events_of (popen_communicate_stdout world cmd h lg)) = 1.
Proof.
  unfold popen_communicate_stdout.
  assert (∀ proc, all_events (λ ev, is_popen ev = false)
            (streams ← call_out world (CallMethod proc "communicate" []);
             getitem world streams 0)) as Hrest.
  { intros proc. repeat all_events_step; [done|].
    match goal with
    | Hname : call_name ?c = _ |- _ => destruct c; simpl in *; by subst
    end. }
  unfold mbind at 1, M_bind at 1, call_out at 1, events_of.
  destruct (world h _) as [proc|e]; [|done].
  specialize (Hrest proc (h ++ [Called (CallFunction "subprocess.Popen"
                                          [PyList cmd] [("stdout", PIPE)])
                                       (Returned proc)]) lg).
  unfold events_of in Hrest.
  match goal with
  | |- context [let (_, _) := ?run in _] => destruct run as [[r lg2] ev2]
  end.
  simpl in *.
  match goal with
  | |- popen_count (?ev :: ev2) = _ => change (ev :: ev2) with ([ev] ++ ev2)
  end.
  by rewrite popen_count_app, (popen_count_none ev2).
Qed.

(** C2 (as amended): the failure handling of the module is that of the two
    [try] statements of [launch_example_notebook], one around each
    subprocess invocation: a [FileNotFoundError] raised there is caught, an
    error is logged and the function returns.  Nothing else is handled: any
    other exception of a call leaves [launch_example_notebook] and [main],
    and every exception of a call leaves [win_from_args], [quick_launch]
    and [parse_args]. *)
Theorem failure_handling_of_the_module :
  (∀ h lg,
     handles_only_subprocess_FileNotFoundError
       (launch_example_notebook world h lg))
  ∧ (∀ sys_argv h lg,
       handles_only_subprocess_FileNotFoundError (main' sys_argv h lg))
  ∧ (∀ args h lg, propagating (win_from_args world args h lg))
  ∧ (∀ metadata blk lazy h lg,
       propagating (quick_launch world metadata blk lazy h lg))
  ∧ (∀ argv h lg, propagating (parse_args' argv h lg)).
Proof.
  split; [apply launch_example_notebook_handles|].
  split; [apply main_handles|].
  split; [apply win_from_args_propagates|].
  split; [apply quick_launch_propagates|].
  intros argv h lg c e Hin.
  pose proof (parse_args_makes_no_call (λ ev, ∀ c r, ev ≠ Called c r) argv) as Hno.
  specialize (Hno ltac:(done) ltac:(done) ltac:(done) h lg).
  rewrite Forall_forall in Hno. by destruct (Hno _ Hin c (Raised e)).
Qed.

(** C10: when the version check returns a falsy output,
    [launch_example_notebook] returns without a second subprocess
    invocation and without logging; and a second subprocess invocation is
    made exactly when the version check returned a truthy output. *)
Theorem launch_example_notebook_needs_version_output h lg path :
  world h resource_filename_call = Returned path →
  (∀ out,
     outcome_of (popen_communicate_stdout world version_check_cmd
                   (h ++ [Called resource_filename_call (Returned path)]) lg)
       = Returned out →
     truthy out = false →
     outcome_of (launch_example_notebook world h lg) = Returned ()
     ∧ events_of (launch_example_notebook world h lg)
         = Called resource_filename_call (Returned path)
           :: events_of (popen_communicate_stdout world version_check_cmd
                           (h ++ [Called resource_filename_call (Returned path)])
                           lg)
     ∧ popen_count (events_of (launch_example_notebook world h lg)) = 1
     ∧ Forall (λ ev, is_logged ev = false)
              (events_of (launch_example_notebook world h lg)))
  ∧ (popen_count (events_of (launch_example_notebook world h lg)) = 2
     ↔ ∃ out,
         outcome_of (popen_communicate_stdout world version_check_cmd
                       (h ++ [Called resource_filename_call (Returned path)]) lg)
           = Returned out
         ∧ truthy out = true).
Proof.
  intros Hpath.
  pose proof (launch_example_notebook_run h lg) as Hrun.
  rewrite Hpath in Hrun. cbv zeta in Hrun.
  set (ev0 := Called resource_filename_call (Returned path)) in *.
  pose proof (popen_communicate_stdout_popen_count version_check_cmd
                (h ++ [ev0]) lg) as Hcount1.
  pose proof (popen_communicate_stdout_calls version_check_cmd (h ++ [ev0]) lg)
    as Hcalls1.
  destruct (popen_communicate_stdout world version_check_cmd (h ++ [ev0]) lg)
    as [[[out|e1] lg1] ev1].
  - unfold events_of, outcome_of in *. simpl in *.
    destruct (truthy out) eqn:Htruthy.
    + split; [intros out' [= <-]; congruence|].
      pose proof (popen_communicate_stdout_popen_count
                    [PyStr "jupyter"; PyStr "notebook"; path]
                    ((h ++ [ev0]) ++ ev1) lg1) as Hcount2.
      unfold events_of in Hcount2.
      destruct (popen_communicate_stdout world _ ((h ++ [ev0]) ++ ev1) lg1)
        as [[[out2|e2] lg2] ev2]; simpl in *.
      * rewrite Hrun. simpl.
        change (ev0 :: ev1 ++ ev2) with ([ev0] ++ ev1 ++ ev2).
        rewrite !popen_count_app, Hcount1, Hcount2. split; [eauto|done].
      * assert (popen_count (events_of (launch_example_notebook world h lg)) = 2)
          as Hcount; [|unfold events_of in Hcount; split; eauto].
        destruct e2; [destruct Hrun as [msg Hrun]|..]; rewrite Hrun; simpl;
          change (ev0 :: ?l) with ([ev0] ++ l);
          by rewrite !popen_count_app, Hcount1, Hcount2.
    + rewrite Hrun. simpl.
      change (ev0 :: ev1) with ([ev0] ++ ev1).
      rewrite popen_count_app, Hcount1. split.
      * intros out' [= <-] _. split; [done|]. split; [done|]. split; [done|].
        constructor; [done|].
        eapply Forall_impl; [exact Hcalls1|]. by intros ev (c & r & -> & _).
      * split; [done|]. intros (out' & [= <-] & ?). congruence.
  - unfold events_of, outcome_of in *. simpl in *.
    split; [by intros out [=]|].
    split; [|by intros (out & [=] & _)].
    intros Hcount. exfalso. revert Hcount.
    destruct e1; [destruct Hrun as [msg Hrun]|..]; rewrite Hrun; simpl;
      change (ev0 :: ?l) with ([ev0] ++ l);
      by rewrite !popen_count_app, Hcount1.
Qed.

End properties.

(** * Instances *)

Lemma parse_args_toggles_logging_levels_witness :
  logging_of (parse_args example_version INFO example_ui_scales example_themes
                ["neurotic"; "--debug"] [] logging_at_start)
  = {| parent_level := DEBUG; libav_level := WARNING |}.
Proof.
  refine (proj1 (proj1 (parse_args_toggles_logging_levels
                          example_version INFO example_ui_scales example_themes
                          ["neurotic"; "--debug"] [] logging_at_start debug_args _)
                       _)).
  - vm_compute. reflexivity.
  - vm_compute. reflexivity.
Defined.

Lemma parse_args_overwrites_logging_levels_witness :
  ∃ debug, default_args !! "debug" = Some debug ∧
    logging_of (parse_args example_version INFO example_ui_scales example_themes
                  ["neurotic"; "--no-debug"] [] logging_at_start)
    = (if truthy debug
       then {| parent_level := DEBUG; libav_level := WARNING |}
       else {| parent_level := INFO; libav_level := CRITICAL |}).
Proof.
  destruct (parse_args_overwrites_logging_levels
              example_version INFO example_ui_scales example_themes
              ["neurotic"; "--no-debug"] [] logging_at_start default_args)
    as (debug & Hdebug & Hlevels & _).
  - vm_compute. reflexivity.
  - exists debug. split; assumption.
Defined.

Lemma parse_args_ignores_argv0_witness :
  parse_args example_version INFO example_ui_scales example_themes
    ["neurotic"; "--debug"; "metadata.yml"] [] logging_at_start
  = parse_args example_version INFO example_ui_scales example_themes
      ["/usr/bin/python3"; "--debug"; "metadata.yml"] [] logging_at_start.
Proof.
  apply parse_args_ignores_argv0.
  intros [|i] Hi; [congruence|reflexivity].
Defined.

Lemma win_from_args_calls_MainWindow_witness :
  win_from_args world_fresh example_args [] logging_at_start
  = (Returned (PyObj 0), logging_at_start,
     [Called (MainWindow_call (PyStr "metadata.yml") PyNone (PyBool true)
                (PyStr "light") (PyStr "medium") (PyBool false) (PyBool false))
             (Returned (PyObj 0))]).
Proof.
  apply (win_from_args_calls_MainWindow world_fresh example_args
           (PyStr "metadata.yml") PyNone (PyBool true) (PyStr "light")
           (PyStr "medium") (PyBool false) (PyBool false) [] logging_at_start);
    vm_compute; reflexivity.
Defined.

Lemma launch_example_notebook_needs_version_output_witness :
  outcome_of (launch_example_notebook (world_jupyter [] (Returned (PyObj 2))) []
                logging_at_start) = Returned ()
  ∧ popen_count (events_of (launch_example_notebook
                              (world_jupyter [] (Returned (PyObj 2))) []
                              logging_at_start)) = 1.
Proof.
  destruct (proj1 (launch_example_notebook_needs_version_output
                     (world_jupyter [] (Returned (PyObj 2))) [] logging_at_start
                     notebook_path eq_refl) (PyBytes []))
    as (Hreturned & _ & Hcount & _).
  - vm_compute. reflexivity.
  - reflexivity.
  - split; assumption.
Defined.

Lemma failure_handling_of_the_module_witness :
  ∃ msg values,
    last (events_of (launch_example_notebook
                       (world_jupyter jupyter_version_output
                                      (Raised FileNotFoundError))
                       [] logging_at_start))
    = Some (Logged ERROR msg values).
Proof.
  refine (proj2 (proj1 (failure_handling_of_the_module
                          example_version INFO example_ui_scales example_themes
                          (world_jupyter jupyter_version_output
                                         (Raised FileNotFoundError)))
                       [] logging_at_start
                       (popen_call [PyStr "jupyter"; PyStr "notebook";
                                    notebook_path])
                       FileNotFoundError _)).
  vm_compute.
  repeat first [apply list_elem_of_here | apply list_elem_of_further].
Defined.

(** C2 (as stated) fails: there is a second handler.  On a machine where the
    version check succeeds and the launch of the notebook raises
    [FileNotFoundError], [launch_example_notebook] catches the exception and
    returns. *)
Lemma launch_failure_is_caught_too :
  Called (popen_call [PyStr "jupyter"; PyStr "notebook"; notebook_path])
         (Raised FileNotFoundError)
    ∈ events_of (launch_example_notebook
                   (world_jupyter jupyter_version_output
                                  (Raised FileNotFoundError))
                   [] logging_at_start)
  ∧ outcome_of (launch_example_notebook
                  (world_jupyter jupyter_version_output
                                 (Raised FileNotFoundError))
                  [] logging_at_start) = Returned ()
  ∧ ¬ only_version_check_guarded.
Proof.
  assert (Called (popen_call [PyStr "jupyter"; PyStr "notebook"; notebook_path])
                 (Raised FileNotFoundError)
            ∈ events_of (launch_example_notebook
                           (world_jupyter jupyter_version_output
                                          (Raised FileNotFoundError))
                           [] logging_at_start)) as Hin.
  { vm_compute.
  repeat first [apply list_elem_of_here | apply list_elem_of_further]. }
  split; [exact Hin|]. split; [reflexivity|].
  intros Hclaim.
  specialize (Hclaim _ _ _ _ Hin ltac:(discriminate)).
  vm_compute in Hclaim. discriminate.
Qed.

(** * Further properties *)

(** Membership in a list that is written out. *)
Ltac in_list :=
  repeat first [apply list_elem_of_here | apply list_elem_of_further].

(** ** Invariants of the namespace during a parse *)

Section namespace_invariant.

Import argparse.

Context (p : ArgumentParser) (I : Namespace → Prop).
Context (I_take_action : ∀ id arg_strings st st',
  take_action p id arg_strings st = Ok st' →
  I (namespace st) → I (namespace st')).

Lemma take_actions_invariant tuples st st' :
  take_actions p tuples st = Ok st' → I (namespace st) → I (namespace st').
Proof.
  revert st. induction tuples as [|[id args] tuples IH]; intros st; simpl.
  - by intros [= <-].
  - destruct (take_action p id args st) as [st1| |] eqn:Hact; [|done..].
    intros Hrest Hst. eapply IH; [done|]. by eapply I_take_action.
Qed.

Lemma consume_optional_invariant arg action option_string explicit_arg rest
    st st' n :
  consume_optional p arg action option_string explicit_arg rest st = Ok (st', n) →
  I (namespace st) → I (namespace st').
Proof.
  unfold consume_optional. destruct action as [id|]; [|by intros [= <- _]].
  destruct (match explicit_arg with Some _ => _ | None => _ end)
    as [[tuples m]| |]; [|done..].
  destruct (take_actions p tuples st) as [st1| |] eqn:Hact; [|done..].
  intros [= <- _] Hst. by apply (take_actions_invariant _ _ _ Hact).
Qed.

Lemma consume_positionals_invariant rem st st' n :
  consume_positionals p rem st = Ok (st', n) →
  I (namespace st) → I (namespace st').
Proof.
  unfold consume_positionals.
  destruct (positional_slices (positionals st) rem) as [tuples m].
  destruct (take_actions p tuples _) as [st1| |] eqn:Hact; [|done..].
  intros [= <- _] Hst. by apply (take_actions_invariant _ _ _ Hact).
Qed.

Lemma consume_invariant rem skip st st' :
  consume p skip rem st = Ok st' → I (namespace st) → I (namespace st').
Proof.
  revert skip st. induction rem as [|[arg cls] rest IH]; intros skip st; simpl.
  - destruct (consume_positionals p [] st) as [[st1 n]| |] eqn:Hpos; [|done..].
    intros [= <-]. by apply (consume_positionals_invariant _ _ _ _ Hpos).
  - destruct skip as [|k]; [|apply IH].
    destruct cls as [| |action option_string explicit_arg].
    1,2: destruct (positionals st) as [|pos poss] eqn:Hpositionals;
      [ intros Hrest Hst; by apply (IH _ _ Hrest)
      | destruct (consume_positionals p _ st) as [[st1 n]| |] eqn:Hpos; [|done..];
        intros Hrest Hst; apply (IH _ _ Hrest);
        by apply (consume_positionals_invariant _ _ _ _ Hpos) ].
    destruct (consume_optional p arg action option_string explicit_arg rest st)
      as [[st1 n]| |] eqn:Hopt; [|done..].
    intros Hrest Hst. apply (IH _ _ Hrest).
    by apply (consume_optional_invariant _ _ _ _ _ _ _ _ Hopt).
Qed.

(** What holds of the initial namespace and is kept by every action holds of
    the namespace that the parse returns. *)
Lemma parse_args_invariant args ns :
  parse_args p args = Ok ns → I (initial_namespace p) → I ns.
Proof.
  unfold parse_args. destruct (classify p args) as [e|items]; [done|].
  destruct (consume p 0 items _) as [st| |] eqn:Hconsume; [|done..].
  destruct (extras st); [|done]. intros [= <-].
  by apply (consume_invariant _ _ _ _ Hconsume).
Qed.

End namespace_invariant.

(** ** Relations between the states of a parse *)

Section consume_related.

Import argparse.

Context (p : ArgumentParser) (R : pstate → pstate → Prop).
Context (R_refl : ∀ st, R st st).
Context (R_trans : ∀ st1 st2 st3, R st1 st2 → R st2 st3 → R st1 st3).
Context (R_take_action : ∀ id arg_strings st st',
  take_action p id arg_strings st = Ok st' → R st st').
Context (R_bookkeeping : ∀ st pos ex,
  R st (mkPstate (namespace st) (seen_non_default_actions st) pos ex)).

Lemma take_actions_related tuples st st' :
  take_actions p tuples st = Ok st' → R st st'.
Proof.
  revert st. induction tuples as [|[id args] tuples IH]; intros st; simpl.
  - intros [= <-]. apply R_refl.
  - destruct (take_action p id args st) as [st1| |] eqn:Hact; [|done..].
    intros Hrest. eapply R_trans; [by eapply R_take_action|by apply IH].
Qed.

Lemma consume_optional_related arg action option_string explicit_arg rest
    st st' n :
  consume_optional p arg action option_string explicit_arg rest st = Ok (st', n) →
  R st st'.
Proof.
  unfold consume_optional. destruct action as [id|].
  - destruct (match explicit_arg with Some _ => _ | None => _ end)
      as [[tuples m]| |]; [|done..].
    destruct (take_actions p tuples st) as [st1| |] eqn:Hact; [|done..].
    intros [= <- _]. by eapply take_actions_related.
  - intros [= <- _]. apply R_bookkeeping.
Qed.

Lemma consume_positionals_related rem st st' n :
  consume_positionals p rem st = Ok (st', n) → R st st'.
Proof.
  unfold consume_positionals.
  destruct (positional_slices (positionals st) rem) as [tuples m].
  destruct (take_actions p tuples _) as [st1| |] eqn:Hact; [|done..].
  intros [= <- _]. eapply R_trans; [|by eapply take_actions_related].
  apply R_bookkeeping.
Qed.

Lemma consume_related rem skip st st' :
  consume p skip rem st = Ok st' → R st st'.
Proof.
  revert skip st. induction rem as [|[arg cls] rest IH]; intros skip st; simpl.
  - destruct (consume_positionals p [] st) as [[st1 n]| |] eqn:Hpos; [|done..].
    intros [= <-]. by eapply consume_positionals_related.
  - destruct skip as [|k]; [|apply IH].
    destruct cls as [| |action option_string explicit_arg].
    1,2: destruct (positionals st) as [|pos poss] eqn:Hpositionals;
      [ intros Hrest; eapply R_trans; [|by eapply IH]; apply R_bookkeeping
      | destruct (consume_positionals p _ st) as [[st1 n]| |] eqn:Hpos; [|done..];
        intros Hrest; eapply R_trans; [|by eapply IH];
        by eapply consume_positionals_related ].
    destruct (consume_optional p arg action option_string explicit_arg rest st)
      as [[st1 n]| |] eqn:Hopt; [|done..].
    intros Hrest. eapply R_trans; [|by eapply IH].
    by eapply consume_optional_related.
Qed.

End consume_related.

(** ** Options that store a constant *)

Section constant_option.

Import argparse.

Context (p : ArgumentParser).

Local Abbreviation no_option := (λ it : string * arg_class, is_option_class it.2 = false).

(** An action that takes no argument is never taken with its default. *)
Lemma get_values_no_argument (a : Action) arg_strings value is_default :
  nargs a = NargsZero →
  get_values a arg_strings = inr (value, is_default) →
  is_default = false ∧ is_Some value.
Proof.
  unfold get_values. intros ->.
  destruct (remove_dashdash arg_strings) as [|s [|s' l]];
    destruct (omap _ _); intros [= <- <-]; eauto.
Qed.

(** What a successful [take_action] has done. *)
Lemma take_action_Ok id arg_strings st st' :
  take_action p id arg_strings st = Ok st' →
  (_actions p !! id = None ∧ st' = st) ∨
  ∃ a value is_default,
    _actions p !! id = Some a ∧
    get_values a arg_strings = inr (value, is_default) ∧
    seen_non_default_actions st' =
      (if is_default then seen_non_default_actions st
       else id :: seen_non_default_actions st) ∧
    (is_default = false →
     ∀ k, k ∈ action_conflicts p id → k ∉ seen_non_default_actions st') ∧
    match value with
    | None => namespace st' = namespace st
    | Some v =>
        match class a with
        | StoreAction => namespace st' = <[dest a := v]> (namespace st)
        | StoreConstAction k => namespace st' = <[dest a := k]> (namespace st)
        | _ => False
        end
    end.
Proof.
  unfold take_action. intros Hact.
  destruct (_actions p !! id) as [a|]; [right|left; by simplify_eq].
  destruct (get_values a arg_strings) as [e|[value is_default]] eqn:Hval; [done|].
  exists a, value, is_default.
  assert (is_default = false →
          List.find (λ c, bool_decide (c ∈ id :: seen_non_default_actions st))
            (action_conflicts p id) = None →
          ∀ k, k ∈ action_conflicts p id →
               k ∉ id :: seen_non_default_actions st) as Hconf.
  { intros _ Hfind k Hk. apply list_elem_of_In in Hk.
    apply (find_none _ _ Hfind) in Hk. by apply bool_decide_eq_false in Hk. }
  destruct is_default.
  - destruct value as [v|]; [destruct (class a)|]; simplify_eq; simpl;
      split_and!; done.
  - destruct (List.find _ _) eqn:Hfind; [done|].
    destruct value as [v|]; [destruct (class a)|]; simplify_eq; simpl;
      split_and!; auto.
Qed.

Lemma take_action_seen id arg_strings st st' x :
  take_action p id arg_strings st = Ok st' →
  x ∈ seen_non_default_actions st → x ∈ seen_non_default_actions st'.
Proof.
  intros Hact Hx.
  destruct (take_action_Ok _ _ _ _ Hact)
    as [[_ ->]|(a & value & is_default & _ & _ & -> & _)]; [done|].
  destruct is_default; [done|by apply list_elem_of_further].
Qed.

Lemma consume_seen rem skip st st' x :
  consume p skip rem st = Ok st' →
  x ∈ seen_non_default_actions st → x ∈ seen_non_default_actions st'.
Proof.
  apply (consume_related p
           (λ st st', x ∈ seen_non_default_actions st →
                      x ∈ seen_non_default_actions st')); auto.
  intros id arg_strings st1 st2. apply take_action_seen.
Qed.

(** *** The strings that an action takes are no options *)

Lemma leading_dashes_no_option (pattern : list arg_class) :
  Forall (λ cls, is_option_class cls = false)
         (take (leading_dashes pattern) pattern).
Proof. induction pattern as [|[] pattern IH]; simpl; by constructor. Qed.

Lemma match_optional_group_no_option (pattern : list arg_class) :
  Forall (λ cls, is_option_class cls = false)
         (take (match_optional_group pattern) pattern).
Proof.
  unfold match_optional_group.
  rewrite <- !take_take_drop, !Forall_app. split_and!.
  - apply leading_dashes_no_option.
  - destruct (drop _ pattern) as [|[] after]; simpl; by repeat constructor.
  - rewrite <- drop_drop. apply leading_dashes_no_option.
Qed.

Lemma positional_slices_no_option ids (rem : list (string * arg_class)) tuples n :
  positional_slices ids rem = (tuples, n) → Forall no_option (take n rem).
Proof.
  revert rem tuples n. induction ids as [|id ids IH]; intros rem tuples n; simpl.
  - intros [= _ <-]. by rewrite take_0.
  - destruct (positional_slices ids _) as [tuples' m] eqn:Hslices.
    intros [= _ <-]. rewrite <- take_take_drop, Forall_app. split.
    + change (Forall ((λ cls, is_option_class cls = false) ∘ snd)
                     (take (match_optional_group rem.*2) rem)).
      apply Forall_fmap. rewrite fmap_take. apply match_optional_group_no_option.
    + by eapply IH.
Qed.

Lemma consume_positionals_no_option rem st st' n :
  consume_positionals p rem st = Ok (st', n) → Forall no_option (take n rem).
Proof.
  unfold consume_positionals.
  destruct (positional_slices (positionals st) rem) as [tuples m] eqn:Hslices.
  destruct (take_actions p tuples _) as [st1| |]; [|done..].
  intros [= _ <-]. by eapply positional_slices_no_option.
Qed.

Lemma consume_following_no_option id rest tuples tuples' n :
  consume_following p id rest tuples = Ok (tuples', n) →
  Forall no_option (take n rest).
Proof.
  unfold consume_following.
  destruct (_actions p !! id) as [a|]; [|intros [= _ <-]; by rewrite take_0].
  unfold match_argument.
  destruct (nargs a), rest as [|[s []] rest]; simpl; intros ?; simplify_eq;
    by repeat constructor.
Qed.

Lemma consume_explicit_no_option id option_string explicit_arg rest tuples
    tuples' n :
  consume_explicit p id option_string explicit_arg rest tuples = Ok (tuples', n) →
  Forall no_option (take n rest).
Proof.
  revert id option_string tuples.
  induction explicit_arg as [|ch explicit_arg IH]; intros id option_string tuples;
    simpl; destruct (_actions p !! id) as [a|];
    try (intros [= _ <-]; by rewrite take_0);
    destruct (match_argument a [A]) as [e|arg_count]; try done;
    destruct ((arg_count =? 0)%nat && single_dash option_string); try done;
    try (destruct (arg_count =? 1)%nat; [|done];
         intros [= _ <-]; by rewrite take_0).
  destruct (find_option p _) as [id'|]; [|done].
  destruct explicit_arg; [apply consume_following_no_option|apply IH].
Qed.

Lemma consume_optional_no_option arg action option_string explicit_arg rest
    st st' n :
  consume_optional p arg action option_string explicit_arg rest st = Ok (st', n) →
  Forall no_option (take n rest).
Proof.
  unfold consume_optional.
  destruct action as [id|]; [|intros [= _ <-]; by rewrite take_0].
  destruct (match explicit_arg with Some _ => _ | None => _ end)
    as [[tuples m]| |] eqn:Htuples; [|done..].
  destruct (take_actions p tuples st) as [st1| |]; [|done..].
  intros [= _ <-].
  destruct explicit_arg;
    [by eapply consume_explicit_no_option|by eapply consume_following_no_option].
Qed.

(** *** Classification *)

Lemma classify_before_dashdash args items s :
  classify p args = inr items → s ∈ before_dashdash args →
  ∃ cls, parse_optional p s = inr cls ∧ (s, cls) ∈ items.
Proof.
  revert items. induction args as [|arg args IH]; intros items; simpl.
  - intros _ Hs. by apply elem_of_nil in Hs.
  - destruct (String.eqb arg "--"); [intros _ Hs; by apply elem_of_nil in Hs|].
    destruct (parse_optional p arg) as [e|cls] eqn:Hcls; [done|].
    destruct (classify p args) as [e|items'] eqn:Hitems; [done|].
    intros [= <-] [->|Hs]%elem_of_cons.
    + exists cls. split; [done|apply list_elem_of_here].
    + destruct (IH items' eq_refl Hs) as (cls' & Hcls' & Hin).
      exists cls'. split; [done|by apply list_elem_of_further].
Qed.

Lemma classify_succeeds args :
  Forall (λ s, ∃ cls, parse_optional p s = inr cls) (before_dashdash args) →
  ∃ items, classify p args = inr items.
Proof.
  induction args as [|arg args IH]; simpl; [by eexists|].
  destruct (String.eqb arg "--"); [by eexists|].
  intros [[cls ->] [items ->]%IH]%Forall_cons. by eexists.
Qed.

(** Where parsing returns, every option before the first [--] was
    handed to [consume_optional] with the strings behind it, and that
    succeeded. *)
Lemma consume_reaches pre s action option_string explicit_arg rest skip st st' :
  consume p skip (pre ++ (s, O action option_string explicit_arg) :: rest) st
    = Ok st' →
  Forall no_option
    (take skip (pre ++ (s, O action option_string explicit_arg) :: rest)) →
  ∃ st1 st2 n,
    consume_optional p s action option_string explicit_arg rest st1 = Ok (st2, n).
Proof.
  revert skip st. induction pre as [|[arg cls] pre IH]; intros skip st; simpl.
  - destruct skip as [|k]; simpl; [|by intros _ [[=] _]%Forall_cons].
    destruct (consume_optional p s action option_string explicit_arg rest st)
      as [[st1 n]| |] eqn:Hopt; [|done..].
    intros _ _. by exists st, st1, n.
  - destruct skip as [|k]; simpl; [|intros Hc [_ Hskip]%Forall_cons; by eapply IH].
    intros Hc _. destruct cls as [| |action' os' explicit_arg'].
    1,2: destruct (positionals st) as [|pos poss] eqn:Hpositionals;
      [ eapply (IH 0); [done|by rewrite take_0]
      | destruct (consume_positionals p _ st) as [[st1 n]| |] eqn:Hpos; [|done..];
        eapply IH; [done|];
        apply consume_positionals_no_option in Hpos;
        destruct n; simpl in *; [by rewrite take_0|by inversion Hpos] ].
    destruct (consume_optional p arg action' os' explicit_arg' _ st)
      as [[st1 n]| |] eqn:Hopt; [|done..].
    eapply IH; [done|]. by eapply consume_optional_no_option.
Qed.

Lemma classify_app pre rest items :
  classify p (pre ++ rest) = inr items → "--" ∉ pre →
  ∃ pre_items rest_items,
    items = pre_items ++ rest_items ∧ classify p rest = inr rest_items.
Proof.
  revert items. induction pre as [|arg pre IH]; intros items; simpl.
  - intros Hitems _. by exists [], items.
  - intros Hitems [Harg Hpre]%not_elem_of_cons.
    destruct (String.eqb arg "--") eqn:Hdash;
      [by apply String.eqb_eq in Hdash|].
    destruct (parse_optional p arg) as [e|cls]; [done|].
    destruct (classify p (pre ++ rest)) as [e|items'] eqn:Hitems'; [done|].
    injection Hitems as <-.
    destruct (IH items' eq_refl Hpre) as (pre_items & rest_items & -> & Hrest).
    by exists ((arg, cls) :: pre_items), rest_items.
Qed.

(** *** The constant reaches the namespace *)

Context (i : nat) (ai : Action) (d : string) (c : pyval).
Context (Hi : _actions p !! i = Some ai).
Context (Hnargs : nargs ai = NargsZero).
Context (Hclass : class ai = StoreConstAction c).
Context (Hdest : dest ai = d).
Context (Hsole : sole_writer p i d = true).

Lemma take_action_constant_kept id arg_strings st st' :
  take_action p id arg_strings st = Ok st' →
  (i ∈ seen_non_default_actions st → namespace st !! d = Some c) →
  i ∈ seen_non_default_actions st' → namespace st' !! d = Some c.
Proof.
  intros Hact Hinv Hseen.
  destruct (take_action_Ok _ _ _ _ Hact)
    as [[_ ->]|(a & value & is_default & Ha & Hval & Hs & Hconf & Hns)];
    [by apply Hinv|].
  destruct (decide (id = i)) as [Heq|Hne].
  - rewrite Heq, Hi in Ha. injection Ha as <-.
    destruct (get_values_no_argument _ _ _ _ Hnargs Hval) as [_ [v ->]].
    rewrite Hclass in Hns. rewrite Hns, Hdest. apply lookup_insert_eq.
  - assert (i ∈ seen_non_default_actions st' → i ∈ seen_non_default_actions st)
      as Hback.
    { rewrite Hs. destruct is_default; [done|].
      intros [Heq|Hin]%elem_of_cons; [by subst|done]. }
    unfold sole_writer in Hsole. rewrite forallb_forall in Hsole.
    specialize (Hsole (id, a)).
    assert (In (id, a) (imap (λ id a, (id, a)) (_actions p))) as Hin.
    { apply list_elem_of_In.
      by apply (elem_of_lookup_imap_2 (λ id a, (id, a))). }
    specialize (Hsole Hin). simpl in Hsole.
    apply orb_true_iff in Hsole as [Hsole|Hsole];
      [apply orb_true_iff in Hsole as [Hsole|Hsole]|].
    + by apply Nat.eqb_eq in Hsole.
    + apply negb_true_iff, String.eqb_neq in Hsole.
      destruct value as [v|]; [destruct (class a); try done|];
        rewrite Hns, ?lookup_insert_ne by done; auto.
    + assert (nargs a = NargsZero → bool_decide (i ∈ action_conflicts p id) = true →
              namespace st' !! d = Some c) as Hexcluded.
      { intros Hzero Hconflict%bool_decide_eq_true.
        destruct (get_values_no_argument _ _ _ _ Hzero Hval) as [-> _].
        by destruct (Hconf eq_refl i Hconflict). }
      destruct value as [v|]; [|rewrite Hns; auto].
      destruct (class a); try done;
        destruct (nargs a); try done; by apply Hexcluded.
Qed.

Lemma consume_optional_constant arg option_string rest st st' n :
  consume_optional p arg (Some i) option_string None rest st = Ok (st', n) →
  i ∈ seen_non_default_actions st' ∧ n = 0.
Proof.
  unfold consume_optional, consume_following. rewrite Hi.
  unfold match_argument. rewrite Hnargs. simpl.
  destruct (take_action p i [] st) as [st1| |] eqn:Hact; [|done..].
  intros [= <- <-]. split; [|done].
  destruct (take_action_Ok _ _ _ _ Hact)
    as [[Hnone _]|(a & value & is_default & Ha & Hval & -> & _)];
    [by rewrite Hi in Hnone|].
  rewrite Hi in Ha. injection Ha as <-.
  destruct (get_values_no_argument _ _ _ _ Hnargs Hval) as [-> _].
  apply list_elem_of_here.
Qed.

(** The option is taken wherever it stands, if it is not among the strings
    that the action before it took. *)
Lemma consume_takes_constant rem skip st st' s option_string :
  consume p skip rem st = Ok st' →
  Forall no_option (take skip rem) →
  (s, O (Some i) option_string None) ∈ rem →
  i ∈ seen_non_default_actions st'.
Proof.
  revert skip st. induction rem as [|[arg cls] rest IH]; intros skip st Hc Hskip Hin.
  { by apply elem_of_nil in Hin. }
  simpl in Hc. destruct skip as [|k].
  - destruct cls as [| |action os explicit_arg].
    1,2: apply elem_of_cons in Hin as [Hin|Hin]; [done|];
      destruct (positionals st) as [|pos poss] eqn:Hpositionals;
      [ eapply (IH 0); [done|by rewrite take_0|done]
      | destruct (consume_positionals p _ st) as [[st1 n]| |] eqn:Hpos; [|done..];
        eapply IH; [done| |done];
        apply consume_positionals_no_option in Hpos;
        destruct n; simpl in *; [by rewrite take_0|by inversion Hpos] ].
    destruct (consume_optional p arg action os explicit_arg rest st)
      as [[st1 n]| |] eqn:Hopt; [|done..].
    apply elem_of_cons in Hin as [Hin|Hin].
    + simplify_eq. apply consume_optional_constant in Hopt as [Hseen _].
      by eapply consume_seen.
    + eapply IH; [done| |done]. by eapply consume_optional_no_option.
  - simpl in Hskip. apply Forall_cons in Hskip as [Hhead Hskip].
    apply elem_of_cons in Hin as [Hin|Hin]; [by simplify_eq|].
    by eapply IH.
Qed.

(** An option that stores a constant and stands before the first [--]
    leaves its constant in the namespace that parsing returns. *)
Lemma parse_args_takes_constant args ns s option_string :
  parse_args p args = Ok ns →
  s ∈ before_dashdash args →
  parse_optional p s = inr (O (Some i) option_string None) →
  ns !! d = Some c.
Proof.
  unfold parse_args. intros Hparse Hs Hcls.
  destruct (classify p args) as [e|items] eqn:Hitems; [done|].
  destruct (classify_before_dashdash _ _ _ Hitems Hs) as (cls & Hcls' & Hin).
  rewrite Hcls in Hcls'. injection Hcls' as <-.
  destruct (consume p 0 items _) as [st| |] eqn:Hconsume; [|done..].
  destruct (extras st); [|done]. injection Hparse as <-.
  pose proof (consume_takes_constant _ _ _ _ _ _ Hconsume
                ltac:(by rewrite take_0) Hin) as Hseen.
  revert Hseen.
  refine (consume_related p
            (λ st st', (i ∈ seen_non_default_actions st →
                        namespace st !! d = Some c) →
                       i ∈ seen_non_default_actions st' →
                       namespace st' !! d = Some c)
            _ _ take_action_constant_kept _ _ _ _ _ Hconsume _);
    [auto|auto|simpl; auto|simpl].
  intros Hnil. by apply elem_of_nil in Hnil.
Qed.

End constant_option.

(** ** Options that exit *)

Section exiting_option.

Import argparse.

Context (p : ArgumentParser).

(** The one error of classification is an ambiguous abbreviation. *)
Lemma parse_optional_error s e :
  parse_optional p s = inl e → ∃ options, e = AmbiguousOption s options.
Proof.
  unfold parse_optional. intros Herror.
  repeat case_match; simplify_eq; eauto.
Qed.

Lemma classify_error args e :
  classify p args = inl e →
  ∃ s options, s ∈ args ∧ e = AmbiguousOption s options.
Proof.
  induction args as [|arg args IH]; simpl; [done|].
  destruct (String.eqb arg "--"); [done|].
  destruct (parse_optional p arg) as [e'|cls] eqn:Hcls.
  - intros [= <-]. destruct (parse_optional_error _ _ Hcls) as [options ->].
    exists arg, options. split; [apply list_elem_of_here|done].
  - destruct (classify p args) as [e'|items]; [|done].
    intros [= <-]. destruct (IH eq_refl) as (s & options & Hs & ->).
    exists s, options. split; [by apply list_elem_of_further|done].
Qed.

Context (i : nat) (ai : Action) (why : exit_reason).
Context (Hi : _actions p !! i = Some ai).
Context (Hnargs : nargs ai = NargsZero).
Context (Hclass : match class ai with
                  | HelpAction => why = HelpRequested
                  | VersionAction v => why = VersionRequested v
                  | _ => False
                  end).
Context (Hfree : action_conflicts p i = []).

Lemma consume_optional_exits arg option_string rest st :
  consume_optional p arg (Some i) option_string None rest st = Exit why.
Proof.
  unfold consume_optional, consume_following. rewrite Hi.
  unfold match_argument. rewrite Hnargs. simpl.
  unfold take_action. rewrite Hi. unfold get_values. rewrite Hnargs. simpl.
  rewrite Hfree. simpl. destruct (class ai); try done; by subst.
Qed.

(** The option at the head of the argument strings ends the parse, unless
    classifying the strings behind it fails first. *)
Lemma parse_args_exits opt rest :
  parse_optional p opt = inr (O (Some i) opt None) →
  String.eqb opt "--" = false →
  parse_args p (opt :: rest) = Exit why
  ∨ ∃ s options, s ∈ rest ∧
      parse_args p (opt :: rest) = Exit (UsageError (AmbiguousOption s options)).
Proof.
  intros Hopt Hdash. unfold parse_args. cbn [classify]. rewrite Hdash, Hopt.
  destruct (classify p rest) as [e|items] eqn:Hitems.
  - right. destruct (classify_error _ _ Hitems) as (s & options & Hs & ->).
    by exists s, options.
  - left. cbn [consume]. by rewrite consume_optional_exits.
Qed.

End exiting_option.

(** ** Arguments that are no options *)

Section plain_arguments.

Import argparse.

Context (p : ArgumentParser).

Lemma parse_optional_plain s : is_plain s = true → parse_optional p s = inr A.
Proof.
  destruct s as [|ch s]; [done|].
  destruct ch as [[] [] [] [] [] [] [] []]; done.
Qed.

Lemma plain_not_dashdash s : is_plain s = true → String.eqb s "--" = false.
Proof.
  destruct s as [|ch s]; [done|].
  destruct ch as [[] [] [] [] [] [] [] []]; done.
Qed.

Lemma classify_plain args :
  forallb is_plain args = true →
  classify p args = inr ((λ s, (s, A)) <$> args).
Proof.
  induction args as [|s args IH]; simpl; [done|].
  intros [Hs Hargs]%andb_true_iff.
  by rewrite (plain_not_dashdash _ Hs), (parse_optional_plain _ Hs), (IH Hargs).
Qed.

(** A storing action without choices takes the one string it is given. *)
Lemma take_action_store id a s st :
  _actions p !! id = Some a →
  class a = StoreAction → choices a = None → nargs a = NargsOptional →
  action_conflicts p id = [] →
  String.eqb s "--" = false →
  take_action p id [s] st
  = Ok (mkPstate (<[dest a := PyStr s]> (namespace st))
                 (id :: seen_non_default_actions st) (positionals st) (extras st)).
Proof.
  intros Ha Hclass Hchoices Hnargs Hfree Hs.
  unfold take_action. rewrite Ha. unfold get_values. simpl. rewrite Hs, Hnargs.
  unfold check_value. rewrite Hchoices, Hfree. simpl. by rewrite Hclass.
Qed.

(** A positional that finds no string keeps its default. *)
Lemma take_action_absent id a st :
  _actions p !! id = Some a →
  class a = StoreAction → nargs a = NargsOptional → option_strings a = [] →
  default a = Some PyNone →
  take_action p id [] st
  = Ok (mkPstate (<[dest a := PyNone]> (namespace st))
                 (seen_non_default_actions st) (positionals st) (extras st)).
Proof.
  intros Ha Hclass Hnargs Hpositional Hdefault.
  unfold take_action. rewrite Ha. unfold get_values. simpl.
  rewrite Hnargs, Hpositional, Hdefault. simpl. by rewrite Hclass.
Qed.

(** Once the positionals are matched, what is no option is left over. *)
Lemma consume_plain_extras xs st :
  positionals st = [] →
  consume p 0 ((λ s, (s, A)) <$> xs) st
  = Ok (mkPstate (namespace st) (seen_non_default_actions st) []
                 (extras st ++ xs)).
Proof.
  revert st. induction xs as [|x xs IH]; intros st Hpos; simpl.
  - unfold consume_positionals. rewrite Hpos. simpl. by rewrite app_nil_r.
  - rewrite Hpos, IH by done. simpl. by rewrite <- app_assoc.
Qed.

Context (i1 i2 : nat) (a1 a2 : Action).
Context (Hpositionals : positional_actions p = [i1; i2]).
Context (Ha1 : _actions p !! i1 = Some a1) (Ha2 : _actions p !! i2 = Some a2).
Context (Hclass1 : class a1 = StoreAction) (Hclass2 : class a2 = StoreAction).
Context (Hchoices1 : choices a1 = None) (Hchoices2 : choices a2 = None).
Context (Hnargs1 : nargs a1 = NargsOptional) (Hnargs2 : nargs a2 = NargsOptional).
Context (Hfree1 : action_conflicts p i1 = []) (Hfree2 : action_conflicts p i2 = []).
Context (Hpositional2 : option_strings a2 = []).
Context (Hdefault2 : default a2 = Some PyNone).

Lemma parse_args_one_plain f :
  is_plain f = true →
  parse_args p [f]
  = Ok (<[dest a2 := PyNone]> (<[dest a1 := PyStr f]> (initial_namespace p))).
Proof.
  intros Hf. unfold parse_args.
  rewrite (classify_plain [f]) by (simpl; by rewrite Hf).
  simpl. rewrite Hpositionals. unfold consume_positionals. simpl.
  rewrite (take_action_store i1 a1) by auto using plain_not_dashdash.
  rewrite (take_action_absent i2 a2) by auto.
  simpl. unfold consume_positionals. simpl. done.
Qed.

Lemma parse_args_plain f d xs :
  is_plain f = true → is_plain d = true → forallb is_plain xs = true →
  parse_args p (f :: d :: xs)
  = match xs with
    | [] => Ok (<[dest a2 := PyStr d]>
                  (<[dest a1 := PyStr f]> (initial_namespace p)))
    | _ => Exit (UsageError (UnrecognizedArguments xs))
    end.
Proof.
  intros Hf Hd Hxs. unfold parse_args.
  rewrite (classify_plain (f :: d :: xs)) by (simpl; by rewrite Hf, Hd).
  destruct xs as [|x xs]; simpl; rewrite Hpositionals; unfold consume_positionals;
    simpl;
    rewrite (take_action_store i1 a1) by auto using plain_not_dashdash;
    rewrite (take_action_store i2 a2) by auto using plain_not_dashdash;
    simpl; [done|].
  by rewrite consume_plain_extras.
Qed.

End plain_arguments.

(** ** Options that take one of a list of values *)

Section choice_option.

Import argparse.

Context (p : ArgumentParser) (i : nat) (ai : Action) (cs : list string).
Context (Hi : _actions p !! i = Some ai).
Context (Hnargs : nargs ai = NargsNone).
Context (Hchoices : choices ai = Some cs).

Lemma consume_optional_choice arg option_string v rest st st' n :
  consume_optional p arg (Some i) option_string None ((v, A) :: rest) st
    = Ok (st', n) →
  String.eqb v "--" = false →
  existsb (String.eqb v) cs = true.
Proof.
  unfold consume_optional, consume_following. rewrite Hi.
  unfold match_argument. rewrite Hnargs. simpl.
  unfold take_action. rewrite Hi. unfold get_values. simpl.
  intros Hok Hv. revert Hok. rewrite Hv, Hnargs. unfold check_value.
  rewrite Hchoices. by destruct (existsb (String.eqb v) cs).
Qed.

(** Parsing returns only if the value behind the option is one of the
    choices. *)
Lemma parse_args_checks_choice pre opt v post ns :
  parse_args p (pre ++ opt :: v :: post) = Ok ns →
  "--" ∉ pre →
  parse_optional p opt = inr (O (Some i) opt None) →
  String.eqb opt "--" = false →
  is_plain v = true →
  v ∈ cs.
Proof.
  unfold parse_args. intros Hparse Hpre Hopt Hdash Hv.
  destruct (classify p _) as [e|items] eqn:Hitems; [done|].
  destruct (classify_app _ _ _ _ Hitems Hpre)
    as (pre_items & rest_items & -> & Hrest).
  simpl in Hrest. rewrite Hdash, Hopt, (plain_not_dashdash _ Hv) in Hrest.
  rewrite (parse_optional_plain _ _ Hv) in Hrest.
  destruct (classify p post) as [e|post_items]; [done|].
  injection Hrest as <-.
  destruct (consume p 0 _ _) as [st| |] eqn:Hconsume; [|done..].
  destruct (consume_reaches _ _ _ _ _ _ _ _ _ _ Hconsume
              ltac:(by rewrite take_0)) as (st1 & st2 & n & Hoption).
  apply consume_optional_choice in Hoption;
    [|by apply plain_not_dashdash].
  apply existsb_exists in Hoption as (c & Hc & Heq).
  apply String.eqb_eq in Heq. subst c. by apply list_elem_of_In.
Qed.

End choice_option.

Section namespace_attributes.

Import argparse.

Context (p : ArgumentParser).

(** An action only adds to the namespace. *)
Lemma take_action_dom (K : gset string) id arg_strings st st' :
  take_action p id arg_strings st = Ok st' →
  K ⊆ dom (namespace st) → K ⊆ dom (namespace st').
Proof.
  unfold take_action.
  destruct (_actions p !! id) as [a|]; [|by intros [= <-]].
  destruct (get_values a arg_strings) as [e|[value is_default]]; [done|].
  destruct (if is_default then None else _); [done|].
  destruct value as [v|]; [|by intros [= <-]].
  destruct (class a); intros [= <-]; simpl; rewrite ?dom_insert_L; set_solver.
Qed.

(** An action of a parser whose actions keep the flags boolean does so. *)
Lemma take_action_flags id arg_strings st st' :
  forallb keeps_flags_bool (_actions p) = true →
  take_action p id arg_strings st = Ok st' →
  flags_are_bool (namespace st) → flags_are_bool (namespace st').
Proof.
  intros Hactions. unfold take_action.
  destruct (_actions p !! id) as [a|] eqn:Ha; [|by intros [= <-]].
  assert (keeps_flags_bool a = true) as Hkeeps.
  { rewrite forallb_forall in Hactions. apply Hactions.
    apply list_elem_of_In. by eapply list_elem_of_lookup_2. }
  destruct (get_values a arg_strings) as [e|[value is_default]]; [done|].
  destruct (if is_default then None else _); [done|].
  destruct value as [v|]; [|by intros [= <-]].
  unfold keeps_flags_bool in Hkeeps.
  destruct (class a) as [|c| |]; [| |done..]; intros [= <-] Hflags k Hk; simpl.
  - apply negb_true_iff, bool_decide_eq_false in Hkeeps.
    rewrite lookup_insert_ne; [by apply Hflags|].
    intros Heq. apply Hkeeps. by rewrite Heq.
  - destruct (decide (dest a = k)) as [Heq|Hne].
    + rewrite <- Heq in Hk |- *. rewrite lookup_insert_eq.
      destruct c; try by (apply negb_true_iff, bool_decide_eq_false in Hkeeps).
      by eexists.
    + rewrite lookup_insert_ne; [by apply Hflags|done].
Qed.

End namespace_attributes.

Section more_properties.

Context (__version__ : string) (default_log_level : Z).
Context (available_ui_scales available_themes : list string).
Context (world : World).

Local Abbreviation the_parser :=
  (parser __version__ available_ui_scales available_themes).
Local Abbreviation parse_args' :=
  (parse_args __version__ default_log_level available_ui_scales available_themes).
Local Abbreviation main' :=
  (main __version__ default_log_level available_ui_scales available_themes world).

(** ** What the parser returns *)

Lemma initial_namespace_parser :
  argparse.initial_namespace the_parser = default_args.
Proof. vm_compute. reflexivity. Qed.

Lemma parser_keeps_flags_bool :
  forallb keeps_flags_bool (argparse._actions the_parser) = true.
Proof. vm_compute. reflexivity. Qed.

(** A returning [parse_args] returns what the parser returned. *)
Lemma parse_args_returned_parsed (argv : list string) h lg args :
  outcome_of (parse_args' argv h lg) = Returned args →
  argparse.parse_args the_parser (drop 1 argv) = argparse.Ok args.
Proof.
  unfold parse_args.
  destruct (parser_parse_args_cases the_parser (drop 1 argv) h lg)
    as [(ns & Hns & Hp)|(e & evs & Hp)].
  - rewrite (bind_returned _ _ _ _ _ _ _ Hp).
    unfold getattr, mbind, M_bind, mret, M_ret, setLevel, logger_debug, emit,
      raise, outcome_of; simpl.
    destruct (ns !! "debug") as [debug|]; simpl; [|done].
    destruct (truthy debug); simpl; [|by intros [= <-]].
    destruct (ns !! "launch_example_notebook") as [launch|]; simpl; [|done].
    destruct (truthy launch); simpl; by intros [= <-].
  - by rewrite (bind_raised _ _ _ _ _ _ _ Hp).
Qed.

Lemma parsed_attributes (args : list string) ns :
  argparse.parse_args the_parser args = argparse.Ok ns →
  ∀ k, k ∈ namespace_attributes → is_Some (ns !! k).
Proof.
  intros Hparse k Hk. apply elem_of_dom.
  assert (list_to_set namespace_attributes ⊆ dom ns) as Hdom.
  { apply (parse_args_invariant the_parser
             (λ ns, list_to_set namespace_attributes ⊆ dom ns)
             (take_action_dom the_parser _) args ns Hparse).
    rewrite initial_namespace_parser. unfold default_args, namespace_attributes.
    rewrite dom_list_to_map_L. simpl. set_solver. }
  apply Hdom. by apply elem_of_list_to_set.
Qed.

Lemma parsed_flags (args : list string) ns :
  argparse.parse_args the_parser args = argparse.Ok ns → flags_are_bool ns.
Proof.
  intros Hparse.
  apply (parse_args_invariant the_parser flags_are_bool
           (λ id arg_strings st st',
              take_action_flags the_parser id arg_strings st st'
                parser_keeps_flags_bool) args ns Hparse).
  rewrite initial_namespace_parser. intros k Hk.
  unfold flag_attributes in Hk.
  repeat (apply elem_of_cons in Hk as [->|Hk]; [by eexists|]).
  by apply elem_of_nil in Hk.
Qed.

(** X1: every namespace that [parse_args] returns has the nine attributes
    [file], [dataset], [debug], [lazy], [thick_traces], [show_datetime],
    [ui_scale], [theme] and [launch_example_notebook], whatever the command
    line. *)
Theorem parse_args_returns_all_attributes (argv : list string) h lg args :
  outcome_of (parse_args' argv h lg) = Returned args →
  Forall (λ k, is_Some (args !! k)) namespace_attributes.
Proof.
  intros Hret. apply Forall_forall. intros k Hk.
  by eapply parsed_attributes; [eapply parse_args_returned_parsed|].
Qed.

(** X2: in every namespace that [parse_args] returns, [debug], [lazy],
    [thick_traces], [show_datetime] and [launch_example_notebook] are
    booleans. *)
Theorem parse_args_returns_boolean_flags (argv : list string) h lg args :
  outcome_of (parse_args' argv h lg) = Returned args →
  flags_are_bool args.
Proof.
  intros Hret. by eapply parsed_flags, parse_args_returned_parsed.
Qed.

(** ** parse_args: when it raises, what it logs *)

(** X3: when [parse_args] raises, it has not touched the logging levels:
    either the parser exited, which is recorded and raises [SystemExit] with
    the status of the exit, or the parser itself failed; neither [setLevel]
    nor a log call has happened. *)
Theorem parse_args_raises_before_logging (argv : list string) h lg e :
  outcome_of (parse_args' argv h lg) = Raised e →
  logging_of (parse_args' argv h lg) = lg
  ∧ (events_of (parse_args' argv h lg) = []
     ∨ ∃ why, e = SystemExit (exit_status why)
              ∧ events_of (parse_args' argv h lg) = [ParserExit why]).
Proof.
  unfold parse_args, parser_parse_args.
  destruct (argparse.parse_args the_parser (drop 1 argv)) as [ns|why|e']
    eqn:Hparse.
  - destruct (parsed_attributes _ _ Hparse "debug") as [debug Hdebug];
      [unfold namespace_attributes; in_list|].
    destruct (parsed_attributes _ _ Hparse "launch_example_notebook")
      as [launch Hlaunch]; [unfold namespace_attributes; in_list|].
    unfold getattr, mbind, M_bind, mret, M_ret, setLevel, logger_debug, emit,
      raise, outcome_of; simpl.
    rewrite Hdebug; simpl. destruct (truthy debug); simpl; [|done].
    rewrite Hlaunch; simpl. by destruct (truthy launch).
  - unfold mbind, M_bind, emit, raise, outcome_of, logging_of, events_of; simpl.
    intros [= <-]. split; [done|]. right. by exists why.
  - unfold mbind, M_bind, raise, outcome_of, logging_of, events_of; simpl.
    intros _. split; [done|]. by left.
Qed.

(** X4: a returning [parse_args] logs [Debug messages enabled] exactly when
    [debug] is [True] and [launch_example_notebook] is [False]. *)
Theorem parse_args_logs_debug_message (argv : list string) h lg args :
  outcome_of (parse_args' argv h lg) = Returned args →
  (Logged DEBUG "Debug messages enabled" [] ∈ events_of (parse_args' argv h lg)
   ↔ args !! "debug" = Some (PyBool true)
     ∧ args !! "launch_example_notebook" = Some (PyBool false)).
Proof.
  intros Hret.
  pose proof (parsed_flags _ _ (parse_args_returned_parsed _ _ _ _ Hret))
    as Hflags.
  destruct (Hflags "debug") as [d Hd]; [unfold flag_attributes; in_list|].
  destruct (Hflags "launch_example_notebook") as [l Hl];
    [unfold flag_attributes; in_list|].
  destruct (parse_args_returned __version__ default_log_level
              available_ui_scales available_themes argv h lg args Hret)
    as (debug & Hdebug & Hrun).
  rewrite Hd in Hdebug. injection Hdebug as <-. simpl in Hrun.
  rewrite Hd, Hl. destruct d.
  - destruct Hrun as (launch & Hlaunch & _ & ->).
    rewrite Hl in Hlaunch. injection Hlaunch as <-. simpl.
    destruct l; simpl.
    + split; [|by intros [_ [=]]].
      intros Hin. repeat (apply elem_of_cons in Hin as [[=]|Hin]).
      by apply elem_of_nil in Hin.
    + split; [done|]. intros _. in_list.
  - destruct Hrun as [_ ->]. split; [|by intros [[=] _]].
    intros Hin. repeat (apply elem_of_cons in Hin as [[=]|Hin]).
    by apply elem_of_nil in Hin.
Qed.

(** ** main: progress *)

(** One step of a run in a world that never raises. *)
Ltac returning_step Hworld :=
  first
    [ rewrite emit_bind
    | rewrite call_bind;
      match goal with
      | |- context [match world ?h ?c with _ => _ end] =>
          let v := fresh "v" in
          let Hv := fresh "Hv" in
          destruct (Hworld h c) as [v Hv]; rewrite Hv
      end
    | rewrite bind_assoc
    | rewrite ret_bind ];
  cbv beta.

(** X6: in GUI mode, when no call into Qt raises, [main] returns: every
    attribute that the GUI path reads is on the parsed namespace. *)
Theorem main_gui_returns (sys_argv : list string) h lg args launch :
  never_raises world →
  outcome_of (parse_args' sys_argv h lg) = Returned args →
  args !! "launch_example_notebook" = Some launch →
  truthy launch = false →
  outcome_of (main' sys_argv h lg) = Returned ().
Proof.
  intros Hworld Hret Hlaunch Htruthy.
  pose proof (parsed_attributes _ _ (parse_args_returned_parsed _ _ _ _ Hret))
    as Hattrs.
  destruct (Hattrs "file") as [file Hfile];
    [unfold namespace_attributes; in_list|].
  destruct (Hattrs "dataset") as [dataset Hdataset];
    [unfold namespace_attributes; in_list|].
  destruct (Hattrs "lazy") as [lazy Hlazy];
    [unfold namespace_attributes; in_list|].
  destruct (Hattrs "theme") as [theme Htheme];
    [unfold namespace_attributes; in_list|].
  destruct (Hattrs "ui_scale") as [ui_scale Hui_scale];
    [unfold namespace_attributes; in_list|].
  destruct (Hattrs "thick_traces") as [thick_traces Hthick_traces];
    [unfold namespace_attributes; in_list|].
  destruct (Hattrs "show_datetime") as [show_datetime Hshow_datetime];
    [unfold namespace_attributes; in_list|].
  destruct (parse_args' sys_argv h lg) as [[o lg1] ev1] eqn:Hparse.
  unfold outcome_of in Hret. simpl in Hret. subst o.
  unfold main.
  rewrite (bind_returned _ _ _ _ _ _ _ Hparse).
  rewrite (getattr_bind _ _ _ _ _ _ Hlaunch). cbv beta. rewrite Htruthy.
  unfold logger_info, win_from_args.
  repeat first
    [ returning_step Hworld
    | rewrite (getattr_bind _ _ _ _ _ _ Hfile); cbv beta
    | rewrite (getattr_bind _ _ _ _ _ _ Hdataset); cbv beta
    | rewrite (getattr_bind _ _ _ _ _ _ Hlazy); cbv beta
    | rewrite (getattr_bind _ _ _ _ _ _ Htheme); cbv beta
    | rewrite (getattr_bind _ _ _ _ _ _ Hui_scale); cbv beta
    | rewrite (getattr_bind _ _ _ _ _ _ Hthick_traces); cbv beta
    | rewrite (getattr_bind _ _ _ _ _ _ Hshow_datetime); cbv beta ].
  reflexivity.
Qed.

(** ** main: the two modes *)

(** The window call of a parsed namespace. *)
Lemma parsed_window_call (args : list string) ns :
  argparse.parse_args the_parser args = argparse.Ok ns →
  ∃ file dataset lazy theme ui_scale thick_traces show_datetime,
    ns !! "file" = Some file
    ∧ ns !! "dataset" = Some dataset
    ∧ ns !! "lazy" = Some lazy
    ∧ ns !! "theme" = Some theme
    ∧ ns !! "ui_scale" = Some ui_scale
    ∧ ns !! "thick_traces" = Some thick_traces
    ∧ ns !! "show_datetime" = Some show_datetime
    ∧ window_call ns
      = Some (MainWindow_call file dataset lazy theme ui_scale thick_traces
                              show_datetime).
Proof.
  intros Hparse. pose proof (parsed_attributes _ _ Hparse) as Hattrs.
  destruct (Hattrs "file") as [file Hfile];
    [unfold namespace_attributes; in_list|].
  destruct (Hattrs "dataset") as [dataset Hdataset];
    [unfold namespace_attributes; in_list|].
  destruct (Hattrs "lazy") as [lazy Hlazy];
    [unfold namespace_attributes; in_list|].
  destruct (Hattrs "theme") as [theme Htheme];
    [unfold namespace_attributes; in_list|].
  destruct (Hattrs "ui_scale") as [ui_scale Hui_scale];
    [unfold namespace_attributes; in_list|].
  destruct (Hattrs "thick_traces") as [thick_traces Hthick_traces];
    [unfold namespace_attributes; in_list|].
  destruct (Hattrs "show_datetime") as [show_datetime Hshow_datetime];
    [unfold namespace_attributes; in_list|].
  exists file, dataset, lazy, theme, ui_scale, thick_traces, show_datetime.
  unfold window_call.
  rewrite Hfile, Hdataset, Hlazy, Htheme, Hui_scale, Hthick_traces,
    Hshow_datetime.
  by split_and!.
Qed.

(** One step of the GUI path, with both ends of each call. *)
Ltac gui_step :=
  first
    [ rewrite emit_bind
    | rewrite call_bind;
      match goal with
      | |- context [match world ?h ?c with _ => _ end] =>
          destruct (world h c) eqn:?
      end
    | rewrite bind_assoc
    | rewrite ret_bind ];
  cbv beta.

(** A cut run of the GUI path: the steps before the raising call are
    tried by their number. *)
Ltac cut_run :=
  right;
  first
    [ by eexists [_], _, _, _, _
    | by eexists [_; _], _, _, _, _
    | by eexists [_; _; _], _, _, _, _
    | by eexists [_; _; _; _], _, _, _, _
    | by eexists [_; _; _; _; _], _, _, _, _
    | by eexists [_; _; _; _; _; _], _, _, _, _
    | by eexists [_; _; _; _; _; _; _], _, _, _, _
    | by eexists [_; _; _; _; _; _; _; _; _], _, _, _, _ ].

(** In GUI mode the run of [main] after the parse is a run of the GUI
    path. *)
Lemma main_gui_run (sys_argv : list string) h lg args launch :
  outcome_of (parse_args' sys_argv h lg) = Returned args →
  args !! "launch_example_notebook" = Some launch →
  truthy launch = false →
  ∃ window o steps,
    window_call args = Some window
    ∧ events_of (main' sys_argv h lg)
      = events_of (parse_args' sys_argv h lg) ++ steps
    ∧ run_of (gui_run window o) steps (outcome_of (main' sys_argv h lg)).
Proof.
  intros Hret Hlaunch Htruthy.
  destruct (parsed_window_call _ _ (parse_args_returned_parsed _ _ _ _ Hret))
    as (file & dataset & lazy & theme & ui_scale & thick_traces & show_datetime
        & Hfile & Hdataset & Hlazy & Htheme & Hui_scale & Hthick_traces
        & Hshow_datetime & Hwindow).
  exists (MainWindow_call file dataset lazy theme ui_scale thick_traces
                          show_datetime).
  destruct (parse_args' sys_argv h lg) as [[out lg1] ev1] eqn:Hparse.
  unfold outcome_of in Hret. simpl in Hret. subst out.
  unfold main.
  rewrite (bind_returned _ _ _ _ _ _ _ Hparse).
  rewrite (getattr_bind _ _ _ _ _ _ Hlaunch). cbv beta. rewrite Htruthy.
  clear Hparse.
  unfold logger_info, win_from_args, MainWindow_call.
  repeat first
    [ gui_step
    | rewrite (getattr_bind _ _ _ _ _ _ Hfile); cbv beta
    | rewrite (getattr_bind _ _ _ _ _ _ Hdataset); cbv beta
    | rewrite (getattr_bind _ _ _ _ _ _ Hlazy); cbv beta
    | rewrite (getattr_bind _ _ _ _ _ _ Htheme); cbv beta
    | rewrite (getattr_bind _ _ _ _ _ _ Hui_scale); cbv beta
    | rewrite (getattr_bind _ _ _ _ _ _ Hthick_traces); cbv beta
    | rewrite (getattr_bind _ _ _ _ _ _ Hshow_datetime); cbv beta ].
  all: unfold events_of, outcome_of; simpl.
  all: eexists (GuiObjects _ _ _ _ _ _ _ _), _;
    split; [exact Hwindow|]; split; [reflexivity|].
  all: unfold run_of, gui_run, MainWindow_call; simpl.
  all: first [ left; split; reflexivity | cut_run ].
  Unshelve. all: exact PyNone.
Qed.

(** C4: when the parsed [launch_example_notebook] flag is true, [main] runs
    [launch_example_notebook()] after [parse_args] and makes no call that
    creates the Qt application, the splash screen or the main window or that
    enters the event loop.  When it is false, [main] takes the GUI path: what
    it does after [parse_args] is the run of the GUI path, all ten steps in
    order when it returns, and otherwise the steps up to the first call that
    raises; it makes none of the calls of [launch_example_notebook]. *)
Theorem main_dispatches_on_notebook_mode (sys_argv : list string) h lg args
    launch :
  outcome_of (parse_args __version__ default_log_level available_ui_scales
                available_themes sys_argv h lg) = Returned args →
  args !! "launch_example_notebook" = Some launch →
  if truthy launch then
    main' sys_argv h lg
      = (parse_args' sys_argv ≫= λ _, launch_example_notebook world) h lg
    ∧ Forall (λ ev, calls_one_of gui_callables ev = false)
             (events_of (main' sys_argv h lg))
  else
    (∃ window o steps,
       window_call args = Some window
       ∧ events_of (main' sys_argv h lg)
         = events_of (parse_args' sys_argv h lg) ++ steps
       ∧ run_of (gui_run window o) steps (outcome_of (main' sys_argv h lg)))
    ∧ Forall (λ ev, calls_one_of notebook_callables ev = false)
             (events_of (main' sys_argv h lg)).
Proof.
  intros Hret Hlaunch.
  destruct (truthy launch) eqn:Htruthy.
  - pose proof (parse_args_makes_no_call __version__ default_log_level
                  available_ui_scales available_themes
                  (λ ev, calls_one_of gui_callables ev = false) sys_argv
                  ltac:(done) ltac:(done) ltac:(done) h lg) as Hgui.
    destruct (parse_args' sys_argv h lg) as [[out lg1] ev1] eqn:Hparse.
    unfold outcome_of in Hret. simpl in Hret. subst out.
    unfold events_of in Hgui. simpl in Hgui.
    rewrite (bind_returned _ (λ _, launch_example_notebook world) _ _ _ _ _ Hparse).
    unfold main.
    rewrite (bind_returned _ _ _ _ _ _ _ Hparse).
    rewrite (getattr_bind _ _ _ _ _ _ Hlaunch). cbv beta. rewrite Htruthy.
    assert (all_events (λ ev, calls_one_of gui_callables ev = false)
              (launch_example_notebook world)) as Hlen.
    { unfold launch_example_notebook, popen_communicate_stdout, logger_error.
      repeat all_events_step; try done.
      all: match goal with
           | Hname : call_name ?c = _ |- _ => simpl; by rewrite Hname
           end. }
    specialize (Hlen ((h ++ ev1) ++ []) lg1).
    rewrite app_nil_r in *.
    destruct (launch_example_notebook world (h ++ ev1) lg1) as [[r lg2] ev2].
    unfold outcome_of, logging_of, events_of in *. simpl in *.
    split; [done|]. by apply Forall_app.
  - split; [by eapply main_gui_run|].
    pose proof (parse_args_makes_no_call __version__ default_log_level
                  available_ui_scales available_themes
                  (λ ev, calls_one_of notebook_callables ev = false) sys_argv
                  ltac:(done) ltac:(done) ltac:(done) h lg) as Hnotebook.
    destruct (parse_args' sys_argv h lg) as [[out lg1] ev1] eqn:Hparse.
    unfold outcome_of in Hret. simpl in Hret. subst out.
    unfold events_of in Hnotebook. simpl in Hnotebook.
    unfold main.
    rewrite (bind_returned _ _ _ _ _ _ _ Hparse).
    rewrite (getattr_bind _ _ _ _ _ _ Hlaunch). cbv beta. rewrite Htruthy.
    match goal with
    | |- context [let (_, _) := ?m (h ++ ev1) lg1 in _] =>
        assert (all_events (λ ev, calls_one_of notebook_callables ev = false) m)
          as Hsteps;
        [ unfold logger_info, win_from_args; repeat all_events_step; done
        | specialize (Hsteps (h ++ ev1) lg1) ]
    end.
    match type of Hsteps with
    | Forall _ (events_of ?run) => destruct run as [[r2 lg2] ev2]
    end.
    apply Forall_app. by split.
Qed.

(** C5: in GUI mode the steps of [main] after [parse_args] come in the order
    of [gui_run]: the splash screen is created from the logo and shown, then
    the main window is constructed from the parsed arguments and shown, then
    the splash screen is finished against that window, and [app.exec_()] on
    the application comes last, after every other step.  A run that returns
    has made all of these steps; a run that raises has made them up to the
    first call that raised, and raises the exception of that call. *)
Theorem main_gui_steps_in_order (sys_argv : list string) h lg args launch :
  outcome_of (parse_args __version__ default_log_level available_ui_scales
                available_themes sys_argv h lg) = Returned args →
  args !! "launch_example_notebook" = Some launch →
  truthy launch = false →
  ∃ file dataset lazy theme ui_scale thick_traces show_datetime o steps,
    args !! "file" = Some file
    ∧ args !! "dataset" = Some dataset
    ∧ args !! "lazy" = Some lazy
    ∧ args !! "theme" = Some theme
    ∧ args !! "ui_scale" = Some ui_scale
    ∧ args !! "thick_traces" = Some thick_traces
    ∧ args !! "show_datetime" = Some show_datetime
    ∧ events_of (main' sys_argv h lg)
      = events_of (parse_args' sys_argv h lg) ++ steps
    ∧ run_of (gui_run (MainWindow_call file dataset lazy theme ui_scale
                                       thick_traces show_datetime) o)
             steps (outcome_of (main' sys_argv h lg)).
Proof.
  intros Hret Hlaunch Htruthy.
  destruct (parsed_window_call _ _ (parse_args_returned_parsed _ _ _ _ Hret))
    as (file & dataset & lazy & theme & ui_scale & thick_traces & show_datetime
        & Hfile & Hdataset & Hlazy & Htheme & Hui_scale & Hthick_traces
        & Hshow_datetime & Hwindow).
  destruct (main_gui_run _ _ _ _ _ Hret Hlaunch Htruthy)
    as (window & o & steps & Hwindow' & Hevents & Hrun).
  rewrite Hwindow in Hwindow'. injection Hwindow' as <-.
  exists file, dataset, lazy, theme, ui_scale, thick_traces, show_datetime, o,
    steps.
  by split_and!.
Qed.

(** X5: after [parse_args], [main] sets no logging level itself: what a run
    of [main] adds to the events of [parse_args], on the GUI path or in
    [launch_example_notebook], holds no [setLevel].  What the code that is
    called does to the levels is outside of this. *)
Theorem main_makes_no_setLevel_call (sys_argv : list string) h lg :
  ∃ rest,
    events_of (main' sys_argv h lg)
      = events_of (parse_args' sys_argv h lg) ++ rest
    ∧ Forall (λ ev, is_SetLevel ev = false) rest.
Proof.
  unfold main.
  destruct (parse_args' sys_argv h lg) as [[[args|e] lg1] ev1] eqn:Hparse.
  - rewrite (bind_returned _ _ _ _ _ _ _ Hparse).
    match goal with
    | |- context [?m (h ++ ev1) lg1] =>
        assert (all_events (λ ev, is_SetLevel ev = false) m) as Hquiet
    end.
    { unfold launch_example_notebook, popen_communicate_stdout, logger_error,
        logger_info, win_from_args.
      repeat all_events_step; done. }
    specialize (Hquiet (h ++ ev1) lg1).
    match type of Hquiet with
    | Forall _ (events_of ?run) => destruct run as [[r lg2] ev2]
    end.
    by exists ev2.
  - rewrite (bind_raised _ _ _ _ _ _ _ Hparse). exists []. split; [|done].
    unfold events_of. simpl. by rewrite app_nil_r.
Qed.

(** ** win_from_args on a namespace that lacks an attribute *)

(** X7: when one of the seven attributes that [win_from_args] reads is
    missing, it raises [AttributeError] for a missing attribute and does not
    call [MainWindow]: no window is built from a partial set of
    arguments. *)
Theorem win_from_args_missing_attribute (args : gmap string pyval) h lg k :
  k ∈ window_attributes →
  args !! k = None →
  ∃ name, name ∈ window_attributes ∧ args !! name = None ∧
    win_from_args world args h lg = (Raised (AttributeError name), lg, []).
Proof.
  intros Hk Hmissing. unfold win_from_args, window_attributes in *.
  repeat (rewrite getattr_bind_cases;
          match goal with
          | |- context [args !! ?name] =>
              lazymatch goal with
              | H : args !! name = Some _ |- _ => fail
              | _ => idtac
              end;
              destruct (args !! name) eqn:?;
              [|exists name; split; [in_list|done]]
          end).
  exfalso.
  repeat (apply elem_of_cons in Hk as [->|Hk]; [congruence|]).
  by apply elem_of_nil in Hk.
Qed.

(** ** launch_example_notebook: the two subprocesses *)

Lemma popen_communicate_stdout_first_event (cmd : list pyval) h lg :
  ∃ rest,
    events_of (popen_communicate_stdout world cmd h lg)
      = Called (popen_call cmd) (world h (popen_call cmd)) :: rest.
Proof.
  unfold popen_communicate_stdout, popen_call. rewrite call_bind.
  destruct (world h _) as [proc|e]; [|by eexists].
  match goal with
  | |- context [?m (h ++ ?evs) lg] => destruct (m (h ++ evs) lg) as [[r lg2] ev2]
  end.
  by eexists.
Qed.

(** X8: when Jupyter is not installed, that is when starting
    [jupyter notebook --version] raises [FileNotFoundError],
    [launch_example_notebook] logs that it could not verify the installation
    and returns; it does not try to launch the notebook. *)
Theorem launch_example_notebook_without_jupyter h lg path :
  world h resource_filename_call = Returned path →
  world (h ++ [Called resource_filename_call (Returned path)])
        (popen_call version_check_cmd) = Raised FileNotFoundError →
  launch_example_notebook world h lg =
    (Returned (), lg,
     [ Called resource_filename_call (Returned path);
       Called (popen_call version_check_cmd) (Raised FileNotFoundError);
       Logged ERROR
         ("Unable to verify Jupyter is installed using " +:+ double_quote
          +:+ "jupyter notebook --version" +:+ double_quote
          +:+ ". Is it installed?") [] ]).
Proof.
  unfold resource_filename_call, popen_call, version_check_cmd.
  intros Hpath Hpopen.
  unfold launch_example_notebook. rewrite call_bind, Hpath. cbv beta zeta.
  unfold try_except_FileNotFoundError, popen_communicate_stdout.
  unfold mbind at 1, M_bind at 1. rewrite call_bind, Hpopen.
  reflexivity.
Qed.

(** X9: when the version check returned a truthy output, the next call of
    [launch_example_notebook] starts [jupyter notebook] on the path that
    [pkg_resources.resource_filename] returned. *)
Theorem launch_example_notebook_opens_resource h lg path out lg1 ev1 :
  world h resource_filename_call = Returned path →
  popen_communicate_stdout world version_check_cmd
    (h ++ [Called resource_filename_call (Returned path)]) lg
    = (Returned out, lg1, ev1) →
  truthy out = true →
  ∃ r rest,
    events_of (launch_example_notebook world h lg)
      = Called resource_filename_call (Returned path)
        :: ev1
        ++ Called (popen_call [PyStr "jupyter"; PyStr "notebook"; path]) r
           :: rest.
Proof.
  intros Hpath Hcheck Htruthy.
  pose proof (launch_example_notebook_run world h lg) as Hrun.
  rewrite Hpath in Hrun. cbv zeta in Hrun. rewrite Hcheck, Htruthy in Hrun.
  destruct (popen_communicate_stdout_first_event
              [PyStr "jupyter"; PyStr "notebook"; path]
              ((h ++ [Called resource_filename_call (Returned path)]) ++ ev1)
              lg1) as [rest Hfirst].
  destruct (popen_communicate_stdout world _ _ lg1) as [[[out2|e2] lg2] ev2].
  - rewrite Hrun. unfold events_of in *. simpl in *. rewrite Hfirst.
    by eexists _, _.
  - unfold events_of in Hfirst. simpl in Hfirst.
    destruct e2; [destruct Hrun as [msg Hrun]|..]; rewrite Hrun;
      unfold events_of; simpl; rewrite Hfirst; simpl; by eexists _, _.
Qed.

(** X10: [launch_example_notebook] never starts more than two
    subprocesses. *)
Theorem launch_example_notebook_at_most_two_subprocesses h lg :
  (popen_count (events_of (launch_example_notebook world h lg)) ≤ 2)%nat.
Proof.
  pose proof (launch_example_notebook_run world h lg) as Hrun.
  destruct (world h resource_filename_call) as [path|e];
    [|rewrite Hrun; simpl; unfold popen_count; simpl; lia].
  cbv zeta in Hrun.
  set (ev0 := Called resource_filename_call (Returned path)) in *.
  pose proof (popen_communicate_stdout_popen_count world version_check_cmd
                (h ++ [ev0]) lg) as Hcount1.
  destruct (popen_communicate_stdout world version_check_cmd (h ++ [ev0]) lg)
    as [[[out|e1] lg1] ev1]; unfold events_of in Hcount1; simpl in Hcount1.
  - destruct (truthy out).
    + pose proof (popen_communicate_stdout_popen_count world
                    [PyStr "jupyter"; PyStr "notebook"; path]
                    ((h ++ [ev0]) ++ ev1) lg1) as Hcount2.
      destruct (popen_communicate_stdout world _ ((h ++ [ev0]) ++ ev1) lg1)
        as [[[out2|e2] lg2] ev2]; unfold events_of in Hcount2; simpl in Hcount2.
      * rewrite Hrun. unfold events_of. simpl.
        change (ev0 :: ev1 ++ ev2) with ([ev0] ++ ev1 ++ ev2).
        rewrite !popen_count_app, Hcount1, Hcount2. unfold popen_count. simpl. lia.
      * destruct e2; [destruct Hrun as [msg Hrun]|..]; rewrite Hrun;
          unfold events_of; simpl;
          change (ev0 :: ?l) with ([ev0] ++ l);
          rewrite !popen_count_app, Hcount1, Hcount2; unfold popen_count; simpl; lia.
    + rewrite Hrun. unfold events_of. simpl.
      change (ev0 :: ev1) with ([ev0] ++ ev1).
      rewrite popen_count_app, Hcount1. unfold popen_count. simpl. lia.
  - destruct e1; [destruct Hrun as [msg Hrun]|..]; rewrite Hrun;
      unfold events_of; simpl;
      change (ev0 :: ?l) with ([ev0] ++ l);
      rewrite !popen_count_app, Hcount1; unfold popen_count; simpl; lia.
Qed.

(** ** The options on the command line *)

(** The action behind each constant-storing option of the parser. *)
Lemma flag_option_action opt attr b :
  (opt, (attr, b)) ∈ flag_options →
  ∃ i ai,
    argparse.parse_optional the_parser opt = inr (argparse.O (Some i) opt None) ∧
    argparse._actions the_parser !! i = Some ai ∧
    argparse.nargs ai = argparse.NargsZero ∧
    argparse.class ai = argparse.StoreConstAction (PyBool b) ∧
    argparse.dest ai = attr ∧
    sole_writer the_parser i attr = true.
Proof.
  unfold flag_options. intros Hin.
  repeat (apply elem_of_cons in Hin as [Heq|Hin];
          [ injection Heq as -> -> ->; eexists _, _; split_and!;
            vm_compute; reflexivity |]).
  by apply elem_of_nil in Hin.
Qed.

Lemma parsed_flag_option (args : list string) ns opt attr b :
  argparse.parse_args the_parser args = argparse.Ok ns →
  (opt, (attr, b)) ∈ flag_options →
  opt ∈ before_dashdash args →
  ns !! attr = Some (PyBool b).
Proof.
  intros Hparse Hflag Hopt.
  destruct (flag_option_action _ _ _ Hflag)
    as (i & ai & Hcls & Hi & Hnargs & Hclass & Hdest & Hsole).
  by eapply (parse_args_takes_constant the_parser i ai attr (PyBool b)).
Qed.

Lemma exclusive_flag_options opt1 opt2 :
  (opt1, opt2) ∈ exclusive_options →
  ∃ attr, (opt1, (attr, true)) ∈ flag_options ∧
          (opt2, (attr, false)) ∈ flag_options.
Proof.
  unfold exclusive_options, flag_options. intros Hin.
  repeat (apply elem_of_cons in Hin as [Heq|Hin];
          [ injection Heq as -> ->; eexists; split; in_list |]).
  by apply elem_of_nil in Hin.
Qed.

(** X11: each of the nine flags, given anywhere before the first [--], decides
    its attribute in the namespace that [parse_args] returns: [--debug],
    [--lazy], [--thick-traces], [--show-datetime] and
    [--launch-example-notebook] make theirs [True], the [--no-] forms make
    theirs [False], whatever else is on the command line. *)
Theorem parse_args_sets_flag (argv : list string) h lg args opt attr b :
  (opt, (attr, b)) ∈ flag_options →
  opt ∈ before_dashdash (drop 1 argv) →
  outcome_of (parse_args __version__ default_log_level available_ui_scales
                available_themes argv h lg) = Returned args →
  args !! attr = Some (PyBool b).
Proof.
  intros Hflag Hopt Hret. apply parse_args_returned_parsed in Hret.
  by eapply parsed_flag_option.
Qed.

(** X12: [parse_args] never returns when a flag and its [--no-] form are
    both given before the first [--]: it raises. *)
Theorem parse_args_rejects_exclusive_options (argv : list string) h lg
    opt1 opt2 :
  (opt1, opt2) ∈ exclusive_options →
  opt1 ∈ before_dashdash (drop 1 argv) →
  opt2 ∈ before_dashdash (drop 1 argv) →
  ∃ e, outcome_of (parse_args __version__ default_log_level available_ui_scales
                     available_themes argv h lg) = Raised e.
Proof.
  intros Hpair Hopt1 Hopt2.
  destruct (outcome_of (parse_args' argv h lg)) as [args|e] eqn:Hret;
    [exfalso|by exists e].
  apply parse_args_returned_parsed in Hret.
  destruct (exclusive_flag_options _ _ Hpair) as (attr & Hflag1 & Hflag2).
  pose proof (parsed_flag_option _ _ _ _ _ Hret Hflag1 Hopt1) as Htrue.
  pose proof (parsed_flag_option _ _ _ _ _ Hret Hflag2 Hopt2) as Hfalse.
  rewrite Htrue in Hfalse. done.
Qed.

(** The action behind each exiting option of the parser. *)
Lemma exit_option_action opt why :
  (opt, why) ∈ exit_options __version__ →
  ∃ i ai,
    argparse.parse_optional the_parser opt = inr (argparse.O (Some i) opt None) ∧
    String.eqb opt "--" = false ∧
    argparse._actions the_parser !! i = Some ai ∧
    argparse.nargs ai = argparse.NargsZero ∧
    match argparse.class ai with
    | argparse.HelpAction => why = HelpRequested
    | argparse.VersionAction v => why = VersionRequested v
    | _ => False
    end ∧
    argparse.action_conflicts the_parser i = [] ∧
    exit_status why = 0%Z.
Proof.
  unfold exit_options. intros Hin.
  repeat (apply elem_of_cons in Hin as [Heq|Hin];
          [ injection Heq as -> ->; eexists _, _; split_and!;
            vm_compute; reflexivity |]).
  by apply elem_of_nil in Hin.
Qed.

(** X13: with [-h], [--help], [-V] or [--version] as the first argument,
    [parse_args] exits with status 0 after the help or after the version
    text [neurotic] followed by the version, and leaves the logging levels as they
    were; the one other outcome is the usage error, status 2, for an
    ambiguous abbreviation among the later arguments. *)
Theorem parse_args_help_or_version_first (argv0 opt : string) why
    (rest : list string) h lg :
  (opt, why) ∈ exit_options __version__ →
  parse_args __version__ default_log_level available_ui_scales available_themes
    (argv0 :: opt :: rest) h lg
    = (Raised (SystemExit 0), lg, [ParserExit why])
  ∨ ∃ s options, s ∈ rest ∧
      parse_args __version__ default_log_level available_ui_scales
        available_themes (argv0 :: opt :: rest) h lg
        = (Raised (SystemExit 2), lg,
           [ParserExit (UsageError (AmbiguousOption s options))]).
Proof.
  intros Hopt.
  destruct (exit_option_action _ _ Hopt)
    as (i & ai & Hcls & Hdash & Hi & Hnargs & Hclass & Hfree & Hstatus).
  unfold parse_args, parser_parse_args. cbn [drop].
  destruct (parse_args_exits the_parser i ai why Hi Hnargs Hclass Hfree opt rest
              Hcls Hdash) as [->|(s & options & Hs & ->)].
  - left. unfold mbind, M_bind, emit, raise. simpl. by rewrite Hstatus.
  - right. by exists s, options.
Qed.

(** ** main: a command line that is turned down *)

Lemma parse_args_raised (argv : list string) h lg e :
  outcome_of (parse_args' argv h lg) = Raised e →
  ∃ evs, parse_args' argv h lg = (Raised e, lg, evs) ∧
         (evs = [] ∨ ∃ why, evs = [ParserExit why]).
Proof.
  unfold parse_args, parser_parse_args.
  destruct (argparse.parse_args the_parser (drop 1 argv)) as [ns|why|e']
    eqn:Hparse.
  - destruct (parsed_attributes _ _ Hparse "debug") as [debug Hdebug];
      [unfold namespace_attributes; in_list|].
    destruct (parsed_attributes _ _ Hparse "launch_example_notebook")
      as [launch Hlaunch]; [unfold namespace_attributes; in_list|].
    unfold getattr, mbind, M_bind, mret, M_ret, setLevel, logger_debug, emit,
      raise, outcome_of; simpl.
    rewrite Hdebug; simpl. destruct (truthy debug); simpl; [|done].
    rewrite Hlaunch; simpl. by destruct (truthy launch).
  - unfold mbind, M_bind, emit, raise, outcome_of; simpl.
    intros [= <-]. eexists. split; [done|]. right. by exists why.
  - unfold mbind, M_bind, raise, outcome_of; simpl.
    intros [= <-]. eexists. split; [done|]. by left.
Qed.

(** X14: when [parse_args] raises, [main] raises the same exception and has
    done nothing else: nothing of the GUI or of the notebook launch is
    called, nothing is logged, and the logging levels are as they were. *)
Theorem main_stops_when_parse_args_raises (sys_argv : list string) h lg e :
  outcome_of (parse_args __version__ default_log_level available_ui_scales
                available_themes sys_argv h lg) = Raised e →
  outcome_of (main' sys_argv h lg) = Raised e
  ∧ logging_of (main' sys_argv h lg) = lg
  ∧ Forall (λ ev, ∃ why, ev = ParserExit why) (events_of (main' sys_argv h lg)).
Proof.
  intros Hraised.
  destruct (parse_args_raised _ _ _ _ Hraised) as (evs & Hrun & Hevs).
  unfold main. rewrite (bind_raised _ _ _ _ _ _ _ Hrun).
  unfold outcome_of, logging_of, events_of; simpl. split_and!; [done..|].
  destruct Hevs as [->|[why ->]]; repeat constructor. by exists why.
Qed.

(** ** File, dataset and the values of options *)

(** A parse that returns makes [parse_args] return its namespace. *)
Lemma parse_args_returns_parsed (argv : list string) h lg ns :
  argparse.parse_args the_parser (drop 1 argv) = argparse.Ok ns →
  outcome_of (parse_args' argv h lg) = Returned ns.
Proof.
  intros Hparse. unfold parse_args, parser_parse_args. rewrite Hparse.
  destruct (parsed_attributes _ _ Hparse "debug") as [debug Hdebug];
    [unfold namespace_attributes; in_list|].
  destruct (parsed_attributes _ _ Hparse "launch_example_notebook")
    as [launch Hlaunch]; [unfold namespace_attributes; in_list|].
  unfold getattr, mbind, M_bind, mret, M_ret, setLevel, logger_debug, emit,
    raise, outcome_of; simpl.
  rewrite Hdebug; simpl. destruct (truthy debug); simpl; [|done].
  rewrite Hlaunch; simpl. by destruct (truthy launch).
Qed.

Lemma parser_plain_arguments (f d : string) (xs : list string) :
  is_plain f = true → is_plain d = true → forallb is_plain xs = true →
  argparse.parse_args the_parser (f :: d :: xs)
  = match xs with
    | [] => argparse.Ok (<["dataset" := PyStr d]>
                           (<["file" := PyStr f]> default_args))
    | _ => argparse.Exit (UsageError (UnrecognizedArguments xs))
    end.
Proof.
  rewrite <- initial_namespace_parser.
  apply (parse_args_plain the_parser 1 2
           (argparse.mkAction [] "file" argparse.NargsOptional (Some PyNone) None
                              argparse.StoreAction)
           (argparse.mkAction [] "dataset" argparse.NargsOptional (Some PyNone)
                              None argparse.StoreAction));
    vm_compute; reflexivity.
Qed.

Lemma parser_one_plain_argument (f : string) :
  is_plain f = true →
  argparse.parse_args the_parser [f]
  = argparse.Ok (<["file" := PyStr f]> default_args).
Proof.
  intros Hf.
  rewrite (parse_args_one_plain the_parser 1 2
             (argparse.mkAction [] "file" argparse.NargsOptional (Some PyNone)
                                None argparse.StoreAction)
             (argparse.mkAction [] "dataset" argparse.NargsOptional (Some PyNone)
                                None argparse.StoreAction));
    first [done | vm_compute; reflexivity].
Qed.

(** X15: a first argument that does not start with [-] is the [file] and a
    second one the [dataset] of the namespace that [parse_args] returns;
    everything else keeps its default. *)
Theorem parse_args_file_and_dataset (prog f d : string) h lg :
  is_plain f = true → is_plain d = true →
  outcome_of (parse_args __version__ default_log_level available_ui_scales
                available_themes [prog; f] h lg)
  = Returned (<["file" := PyStr f]> default_args)
  ∧ outcome_of (parse_args __version__ default_log_level available_ui_scales
                  available_themes [prog; f; d] h lg)
    = Returned (<["dataset" := PyStr d]> (<["file" := PyStr f]> default_args)).
Proof.
  intros Hf Hd. split; apply parse_args_returns_parsed; cbn [drop].
  - by apply parser_one_plain_argument.
  - by apply (parser_plain_arguments f d []).
Qed.

(** X16: a third argument that is no option is turned down: [parse_args]
    exits with status 2 over the unrecognized arguments, the third and all
    behind it, and leaves the logging levels as they were. *)
Theorem parse_args_rejects_third_argument (prog f d x : string)
    (xs : list string) h lg :
  is_plain f = true → is_plain d = true → is_plain x = true →
  forallb is_plain xs = true →
  parse_args __version__ default_log_level available_ui_scales available_themes
    (prog :: f :: d :: x :: xs) h lg
  = (Raised (SystemExit 2), lg,
     [ParserExit (UsageError (UnrecognizedArguments (x :: xs)))]).
Proof.
  intros Hf Hd Hx Hxs. unfold parse_args, parser_parse_args. cbn [drop].
  rewrite (parser_plain_arguments f d (x :: xs)) by (simpl; by rewrite ?Hx).
  reflexivity.
Qed.

(** The action behind each option with choices. *)
Lemma choice_option_action opt cs :
  (opt, cs) ∈ choice_options available_ui_scales available_themes →
  ∃ i ai,
    argparse.parse_optional the_parser opt = inr (argparse.O (Some i) opt None) ∧
    String.eqb opt "--" = false ∧
    argparse._actions the_parser !! i = Some ai ∧
    argparse.nargs ai = argparse.NargsNone ∧
    argparse.choices ai = Some cs.
Proof.
  unfold choice_options. intros Hin.
  repeat (apply elem_of_cons in Hin as [Heq|Hin];
          [ injection Heq as -> ->; eexists _, _; split_and!;
            vm_compute; reflexivity |]).
  by apply elem_of_nil in Hin.
Qed.

(** X17: [--ui-scale] and [--theme] take only the values that the package
    offers: when one of them stands before the first [--] and the string
    behind it does not start with [-] and is none of its choices,
    [parse_args] raises. *)
Theorem parse_args_rejects_unknown_choice (argv pre : list string)
    (opt : string) (cs : list string) (v : string) (post : list string) h lg :
  (opt, cs) ∈ choice_options available_ui_scales available_themes →
  drop 1 argv = pre ++ opt :: v :: post →
  "--" ∉ pre →
  is_plain v = true →
  v ∉ cs →
  ∃ e, outcome_of (parse_args __version__ default_log_level available_ui_scales
                     available_themes argv h lg) = Raised e.
Proof.
  intros Hopt Hargv Hpre Hv Hnot.
  destruct (outcome_of (parse_args' argv h lg)) as [args|e] eqn:Hret;
    [exfalso|by exists e].
  apply parse_args_returned_parsed in Hret. rewrite Hargv in Hret.
  destruct (choice_option_action _ _ Hopt)
    as (i & ai & Hcls & Hdash & Hi & Hnargs & Hchoices).
  apply Hnot.
  by eapply (parse_args_checks_choice the_parser i ai cs Hi Hnargs Hchoices).
Qed.

End more_properties.

(** * Further instances *)

Lemma parse_args_returns_all_attributes_witness :
  Forall (λ k, is_Some (debug_args !! k)) namespace_attributes.
Proof.
  apply (parse_args_returns_all_attributes example_version INFO
           example_ui_scales example_themes ["neurotic"; "--debug"] []
           logging_at_start debug_args).
  vm_compute. reflexivity.
Defined.

Lemma parse_args_returns_boolean_flags_witness : flags_are_bool debug_args.
Proof.
  apply (parse_args_returns_boolean_flags example_version INFO
           example_ui_scales example_themes ["neurotic"; "--debug"] []
           logging_at_start debug_args).
  vm_compute. reflexivity.
Defined.

Lemma parse_args_raises_before_logging_witness :
  logging_of (parse_args example_version INFO example_ui_scales example_themes
                ["neurotic"; "--bogus"] [] logging_at_start) = logging_at_start
  ∧ (events_of (parse_args example_version INFO example_ui_scales example_themes
                  ["neurotic"; "--bogus"] [] logging_at_start) = []
     ∨ ∃ why, SystemExit 2 = SystemExit (exit_status why)
              ∧ events_of (parse_args example_version INFO example_ui_scales
                             example_themes ["neurotic"; "--bogus"] []
                             logging_at_start) = [ParserExit why]).
Proof.
  apply (parse_args_raises_before_logging example_version INFO
           example_ui_scales example_themes ["neurotic"; "--bogus"] []
           logging_at_start (SystemExit 2)).
  vm_compute. reflexivity.
Defined.

Lemma parse_args_logs_debug_message_witness :
  Logged DEBUG "Debug messages enabled" []
    ∈ events_of (parse_args example_version INFO example_ui_scales example_themes
                   ["neurotic"; "--debug"] [] logging_at_start)
  ↔ debug_args !! "debug" = Some (PyBool true)
    ∧ debug_args !! "launch_example_notebook" = Some (PyBool false).
Proof.
  apply (parse_args_logs_debug_message example_version INFO
           example_ui_scales example_themes ["neurotic"; "--debug"] []
           logging_at_start debug_args).
  vm_compute. reflexivity.
Defined.

Lemma main_gui_returns_witness :
  outcome_of (main example_version INFO example_ui_scales example_themes
                world_fresh ["neurotic"; "metadata.yml"] [] logging_at_start)
  = Returned ().
Proof.
  apply (main_gui_returns example_version INFO example_ui_scales example_themes
           world_fresh ["neurotic"; "metadata.yml"] [] logging_at_start
           example_args (PyBool false)).
  - intros h c. eexists. reflexivity.
  - vm_compute. reflexivity.
  - vm_compute. reflexivity.
  - reflexivity.
Defined.

Lemma win_from_args_missing_attribute_witness :
  ∃ name, name ∈ window_attributes ∧ args_without_theme !! name = None ∧
    win_from_args world_fresh args_without_theme [] logging_at_start
    = (Raised (AttributeError name), logging_at_start, []).
Proof.
  apply (win_from_args_missing_attribute world_fresh args_without_theme []
           logging_at_start "theme").
  - unfold window_attributes. in_list.
  - vm_compute. reflexivity.
Defined.

Lemma launch_example_notebook_without_jupyter_witness :
  launch_example_notebook world_without_jupyter [] logging_at_start =
    (Returned (), logging_at_start,
     [ Called resource_filename_call (Returned notebook_path);
       Called (popen_call version_check_cmd) (Raised FileNotFoundError);
       Logged ERROR
         ("Unable to verify Jupyter is installed using " +:+ double_quote
          +:+ "jupyter notebook --version" +:+ double_quote
          +:+ ". Is it installed?") [] ]).
Proof.
  apply (launch_example_notebook_without_jupyter world_without_jupyter []
           logging_at_start notebook_path).
  - reflexivity.
  - reflexivity.
Defined.

Lemma launch_example_notebook_opens_resource_witness :
  ∃ ev1 r rest,
    events_of (launch_example_notebook
                 (world_jupyter jupyter_version_output (Returned (PyObj 2))) []
                 logging_at_start)
      = Called resource_filename_call (Returned notebook_path)
        :: ev1
        ++ Called (popen_call [PyStr "jupyter"; PyStr "notebook"; notebook_path]) r
           :: rest.
Proof.
  eexists.
  eapply (launch_example_notebook_opens_resource
            (world_jupyter jupyter_version_output (Returned (PyObj 2))) []
            logging_at_start notebook_path).
  - reflexivity.
  - vm_compute. reflexivity.
  - reflexivity.
Defined.

Lemma parse_args_sets_flag_witness :
  debug_args !! "debug" = Some (PyBool true).
Proof.
  apply (parse_args_sets_flag example_version INFO example_ui_scales
           example_themes ["neurotic"; "--debug"] [] logging_at_start debug_args
           "--debug" "debug" true).
  - unfold flag_options. in_list.
  - simpl. in_list.
  - vm_compute. reflexivity.
Defined.

Lemma parse_args_rejects_exclusive_options_witness :
  ∃ e, outcome_of (parse_args example_version INFO example_ui_scales
                     example_themes ["neurotic"; "--lazy"; "data.yml"; "--no-lazy"]
                     [] logging_at_start) = Raised e.
Proof.
  apply (parse_args_rejects_exclusive_options example_version INFO
           example_ui_scales example_themes
           ["neurotic"; "--lazy"; "data.yml"; "--no-lazy"] [] logging_at_start
           "--lazy" "--no-lazy").
  - unfold exclusive_options. in_list.
  - simpl. in_list.
  - simpl. in_list.
Defined.

Lemma parse_args_help_or_version_first_witness :
  parse_args example_version INFO example_ui_scales example_themes
    ["neurotic"; "--version"; "--debug"] [] logging_at_start
    = (Raised (SystemExit 0), logging_at_start,
       [ParserExit (VersionRequested ("neurotic " +:+ example_version))])
  ∨ ∃ s options, s ∈ ["--debug"] ∧
      parse_args example_version INFO example_ui_scales example_themes
        ["neurotic"; "--version"; "--debug"] [] logging_at_start
        = (Raised (SystemExit 2), logging_at_start,
           [ParserExit (UsageError (AmbiguousOption s options))]).
Proof.
  apply (parse_args_help_or_version_first example_version INFO
           example_ui_scales example_themes "neurotic" "--version"
           (VersionRequested ("neurotic " +:+ example_version)) ["--debug"] []
           logging_at_start).
  unfold exit_options. in_list.
Defined.

Lemma main_stops_when_parse_args_raises_witness :
  outcome_of (main example_version INFO example_ui_scales example_themes
                world_fresh ["neurotic"; "--version"] [] logging_at_start)
  = Raised (SystemExit 0)
  ∧ logging_of (main example_version INFO example_ui_scales example_themes
                  world_fresh ["neurotic"; "--version"] [] logging_at_start)
    = logging_at_start
  ∧ Forall (λ ev, ∃ why, ev = ParserExit why)
      (events_of (main example_version INFO example_ui_scales example_themes
                    world_fresh ["neurotic"; "--version"] [] logging_at_start)).
Proof.
  apply (main_stops_when_parse_args_raises example_version INFO
           example_ui_scales example_themes world_fresh
           ["neurotic"; "--version"] [] logging_at_start (SystemExit 0)).
  vm_compute. reflexivity.
Defined.

Lemma parse_args_file_and_dataset_witness :
  outcome_of (parse_args example_version INFO example_ui_scales example_themes
                ["neurotic"; "metadata.yml"] [] logging_at_start)
  = Returned (<["file" := PyStr "metadata.yml"]> default_args)
  ∧ outcome_of (parse_args example_version INFO example_ui_scales example_themes
                  ["neurotic"; "metadata.yml"; "data 1"] [] logging_at_start)
    = Returned (<["dataset" := PyStr "data 1"]>
                  (<["file" := PyStr "metadata.yml"]> default_args)).
Proof.
  apply (parse_args_file_and_dataset example_version INFO example_ui_scales
           example_themes "neurotic" "metadata.yml" "data 1" []
           logging_at_start); reflexivity.
Defined.

Lemma parse_args_rejects_third_argument_witness :
  parse_args example_version INFO example_ui_scales example_themes
    ["neurotic"; "metadata.yml"; "data 1"; "data 2"] [] logging_at_start
  = (Raised (SystemExit 2), logging_at_start,
     [ParserExit (UsageError (UnrecognizedArguments ["data 2"]))]).
Proof.
  apply (parse_args_rejects_third_argument example_version INFO
           example_ui_scales example_themes "neurotic" "metadata.yml" "data 1"
           "data 2" [] [] logging_at_start); reflexivity.
Defined.

Lemma parse_args_rejects_unknown_choice_witness :
  ∃ e, outcome_of (parse_args example_version INFO example_ui_scales
                     example_themes
                     ["neurotic"; "metadata.yml"; "--theme"; "pink"] []
                     logging_at_start) = Raised e.
Proof.
  apply (parse_args_rejects_unknown_choice example_version INFO
           example_ui_scales example_themes
           ["neurotic"; "metadata.yml"; "--theme"; "pink"] ["metadata.yml"]
           "--theme" example_themes "pink" [] [] logging_at_start).
  - unfold choice_options. in_list.
  - reflexivity.
  - intros Hin. repeat (apply elem_of_cons in Hin as [[=]|Hin]).
    by apply elem_of_nil in Hin.
  - reflexivity.
  - unfold example_themes. intros Hin.
    repeat (apply elem_of_cons in Hin as [[=]|Hin]).
    by apply elem_of_nil in Hin.
Defined.

Lemma main_dispatches_on_notebook_mode_witness :
  (main example_version INFO example_ui_scales example_themes world_fresh
     ["neurotic"; "--launch-example-notebook"] [] logging_at_start
   = (parse_args example_version INFO example_ui_scales example_themes
        ["neurotic"; "--launch-example-notebook"]
      ≫= λ _, launch_example_notebook world_fresh) [] logging_at_start
   ∧ Forall (λ ev, calls_one_of gui_callables ev = false)
       (events_of (main example_version INFO example_ui_scales example_themes
                     world_fresh ["neurotic"; "--launch-example-notebook"] []
                     logging_at_start)))
  ∧ ((∃ window o steps,
        window_call example_args = Some window
        ∧ events_of (main example_version INFO example_ui_scales example_themes
                       world_fresh ["neurotic"; "metadata.yml"] []
                       logging_at_start)
          = events_of (parse_args example_version INFO example_ui_scales
                         example_themes ["neurotic"; "metadata.yml"] []
                         logging_at_start) ++ steps
        ∧ run_of (gui_run window o) steps
            (outcome_of (main example_version INFO example_ui_scales
                           example_themes world_fresh
                           ["neurotic"; "metadata.yml"] [] logging_at_start)))
     ∧ Forall (λ ev, calls_one_of notebook_callables ev = false)
         (events_of (main example_version INFO example_ui_scales example_themes
                       world_fresh ["neurotic"; "metadata.yml"] []
                       logging_at_start))).
Proof.
  split.
  - refine (main_dispatches_on_notebook_mode
              example_version INFO example_ui_scales example_themes
              world_fresh ["neurotic"; "--launch-example-notebook"] []
              logging_at_start notebook_args (PyBool true) _ _).
    + vm_compute. reflexivity.
    + vm_compute. reflexivity.
  - refine (main_dispatches_on_notebook_mode
              example_version INFO example_ui_scales example_themes
              world_fresh ["neurotic"; "metadata.yml"] []
              logging_at_start example_args (PyBool false) _ _).
    + vm_compute. reflexivity.
    + vm_compute. reflexivity.
Defined.

Lemma main_gui_steps_in_order_witness :
  ∃ file dataset lazy theme ui_scale thick_traces show_datetime o steps,
    example_args !! "file" = Some file
    ∧ example_args !! "dataset" = Some dataset
    ∧ example_args !! "lazy" = Some lazy
    ∧ example_args !! "theme" = Some theme
    ∧ example_args !! "ui_scale" = Some ui_scale
    ∧ example_args !! "thick_traces" = Some thick_traces
    ∧ example_args !! "show_datetime" = Some show_datetime
    ∧ events_of (main example_version INFO example_ui_scales example_themes
                   world_fresh ["neurotic"; "metadata.yml"] [] logging_at_start)
      = events_of (parse_args example_version INFO example_ui_scales
                     example_themes ["neurotic"; "metadata.yml"] []
                     logging_at_start) ++ steps
    ∧ run_of (gui_run (MainWindow_call file dataset lazy theme ui_scale
                                       thick_traces show_datetime) o)
             steps
             (outcome_of (main example_version INFO example_ui_scales
                            example_themes world_fresh
                            ["neurotic"; "metadata.yml"] [] logging_at_start)).
Proof.
  apply (main_gui_steps_in_order
           example_version INFO example_ui_scales example_themes
           world_fresh ["neurotic"; "metadata.yml"] [] logging_at_start
           example_args (PyBool false)).
  - vm_compute. reflexivity.
  - vm_compute. reflexivity.
  - reflexivity.
Defined.
